(** * Chat-with-Docs: local-context ingestion, suggestion parsing and
      conversation state, embedded from the TypeScript sources

    Sources embedded here:
    - [services/fileProcessor] (second part of src/types.ts):
      [MAX_CONTEXT_CHARS], [ALLOWED_EXTENSIONS], [processFolder];
    - src/App.tsx: the state of [App], its two effects and its handlers;
    - src/services/geminiService.ts: the two outbound requests.

    JavaScript strings are sequences of UTF-16 code units; a code unit is
    an [N].  String lengths are kept in [Z] so that the budget of one
    million characters never has to be written in unary. *)

From Stdlib Require Import List NArith ZArith Lia Bool String Ascii DecimalString.
Import ListNotations.

Set Implicit Arguments.
Set Warnings "-register-all".

(** ** JavaScript strings *)

Module Js.

Definition jsstring := list N.

(** Decoding of a UTF-8 byte sequence (the encoding of the source files)
    into UTF-16 code units. *)
Fixpoint utf8_decode (bs : list N) {struct bs} : jsstring :=
  match bs with
  | [] => []
  | b :: r =>
      if (b <? 128)%N then b :: utf8_decode r
      else if (b <? 224)%N then
        match r with
        | b1 :: r1 => ((b - 192) * 64 + (b1 - 128))%N :: utf8_decode r1
        | [] => []
        end
      else if (b <? 240)%N then
        match r with
        | b1 :: b2 :: r2 =>
            ((b - 224) * 4096 + (b1 - 128) * 64 + (b2 - 128))%N :: utf8_decode r2
        | _ => []
        end
      else
        match r with
        | b1 :: b2 :: b3 :: r3 =>
            let cp := ((b - 240) * 262144 + (b1 - 128) * 4096
                       + (b2 - 128) * 64 + (b3 - 128))%N in
            let v := (cp - 65536)%N in
            (55296 + v / 1024)%N :: (56320 + v mod 1024)%N :: utf8_decode r3
        | _ => []
        end
  end.

(** A string literal of the source. *)
Definition lit (s : string) : jsstring :=
  utf8_decode (map N_of_ascii (list_ascii_of_string s)).

(** A string literal of the source that contains double quotes: written
    here with apostrophes in their place (only used for literals that hold
    no apostrophe of their own). *)
Definition litq (s : string) : jsstring :=
  map (fun c => if (c =? 39)%N then 34%N else c) (lit s).

(** [String(n)] for a non-negative integer. *)
Definition ofNat (n : N) : jsstring := lit (NilZero.string_of_uint (N.to_uint n)).

(** [s.length] *)
Definition strlen (s : jsstring) : Z := Z.of_nat (List.length s).

Fixpoint eqb (a b : jsstring) : bool :=
  match a, b with
  | [], [] => true
  | x :: a', y :: b' => (x =? y)%N && eqb a' b'
  | _, _ => false
  end.

(** [arr.includes(s)] on an array of strings *)
Definition includes (arr : list jsstring) (s : jsstring) : bool :=
  existsb (eqb s) arr.

(** WhiteSpace and LineTerminator code points of ECMAScript: the set
    stripped by [trim] and matched by the regular-expression class \s. *)
Definition isWhiteSpace (c : N) : bool :=
  ((9 <=? c) && (c <=? 13) || (c =? 32) || (c =? 160) || (c =? 5760)
   || (8192 <=? c) && (c <=? 8202) || (c =? 8232) || (c =? 8233)
   || (c =? 8239) || (c =? 8287) || (c =? 12288) || (c =? 65279))%N.

Fixpoint trimStart (s : jsstring) : jsstring :=
  match s with
  | c :: r => if isWhiteSpace c then trimStart r else s
  | [] => []
  end.

Definition trimEnd (s : jsstring) : jsstring := rev (trimStart (rev s)).

(** [s.trim()] *)
Definition trim (s : jsstring) : jsstring := trimEnd (trimStart s).

(** Truthiness of a string: non-empty. *)
Definition truthy (s : jsstring) : bool :=
  match s with [] => false | _ :: _ => true end.

(** [s.split(sep)] for a separator of one code unit. *)
Fixpoint split (sep : N) (s : jsstring) : list jsstring :=
  match s with
  | [] => [[]]
  | c :: r =>
      if (c =? sep)%N then [] :: split sep r
      else match split sep r with
           | h :: t => (c :: h) :: t
           | [] => [[c]]
           end
  end.

(** [arr.join(sep)] *)
Fixpoint join (sep : jsstring) (arr : list jsstring) : jsstring :=
  match arr with
  | [] => []
  | [x] => x
  | x :: rest => x ++ sep ++ join sep rest
  end.

(** [s.toLowerCase()].  Basic Latin capitals are folded; U+212A (Kelvin
    sign) becomes k and U+0130 becomes i followed by U+0307, the only
    other code units whose lower-case form contains a Basic Latin letter.
    The remaining (non-ASCII to non-ASCII) pairs of the Unicode mapping are
    left in place: they cannot make a string equal to an entry of
    [ALLOWED_EXTENSIONS]. *)
Definition lowerUnit (c : N) : jsstring :=
  if ((65 <=? c) && (c <=? 90))%N then [(c + 32)%N]
  else if (c =? 8490)%N then [107%N]
  else if (c =? 304)%N then [105%N; 775%N]
  else [c].

Definition toLowerCase (s : jsstring) : jsstring := flat_map lowerUnit s.

(** [s.substring(start, end)] with the clamping and swapping of the
    language. *)
Definition substring (s : jsstring) (start end_ : Z) : jsstring :=
  let len := strlen s in
  let a := Z.min (Z.max start 0) len in
  let b := Z.min (Z.max end_ 0) len in
  let lo := Z.min a b in
  let hi := Z.max a b in
  firstn (Z.to_nat (hi - lo)) (skipn (Z.to_nat lo) s).

End Js.

Import Js.

(** ** services/fileProcessor *)

Definition MAX_CONTEXT_CHARS : Z := 1000000.

Definition ALLOWED_EXTENSIONS : list jsstring :=
  map lit [".js"; ".jsx"; ".ts"; ".tsx"; ".py"; ".html"; ".css"; ".scss";
           ".md"; ".json"; ".txt"; ".csv"; ".yaml"; ".yml"; ".docx"; ".pdf"]%string.

(** The three readers of the module.  Their bodies live in the browser and
    in two libraries (FileReader, mammoth, pdf.js); a [File] carries what
    each reader resolves to on it, [None] standing for a rejected promise. *)
Inductive Reader := DocxReader | PdfReader | TextReader.

Record File := {
  file_name : jsstring;
  webkitRelativePath : jsstring;
  file_size : N;
  file_read : Reader -> option jsstring
}.

Definition readDocxFile (f : File) : option jsstring := file_read f DocxReader.
Definition readPdfFile (f : File) : option jsstring := file_read f PdfReader.
Definition readTextFile (f : File) : option jsstring := file_read f TextReader.

(** [`.${file.name.split('.').pop()?.toLowerCase()}`] *)
Definition extensionOf (f : File) : jsstring :=
  lit "." ++ toLowerCase (last (split 46 (file_name f)) []).

(** The dispatch shared by [processFolder] and [handleFileUpload]. *)
Definition readByExtension (extension : jsstring) (f : File) : option jsstring :=
  if eqb extension (lit ".docx") then readDocxFile f
  else if eqb extension (lit ".pdf") then readPdfFile f
  else readTextFile f.

Record FileResult := { fr_name : jsstring; fr_content : jsstring }.

Definition isValidFile (f : File) : bool :=
  includes ALLOWED_EXTENSIONS (extensionOf f) && (0 <? file_size f)%N.

Definition validFiles (files : list File) : list File := filter isValidFile files.

(** [(await Promise.all(filePromises)).filter(Boolean)]: the resolved
    reads, in the order of [validFiles]; rejected ones drop out. *)
Fixpoint allResults (valid : list File) : list FileResult :=
  match valid with
  | [] => []
  | f :: rest =>
      match readByExtension (extensionOf f) f with
      | Some content =>
          {| fr_name := webkitRelativePath f; fr_content := content |} :: allResults rest
      | None => allResults rest
      end
  end.

(** [fileResult.content && fileResult.content.trim()] *)
Definition hasContent (r : FileResult) : bool :=
  truthy (fr_content r) && truthy (trim (fr_content r)).

(** The budget loop, with its two loop variables. *)
Fixpoint budgetLoop (totalChars : Z) (finalProcessedFiles : list FileResult)
         (results : list FileResult) : list FileResult :=
  match results with
  | [] => finalProcessedFiles
  | fileResult :: rest =>
      if hasContent fileResult then
        if (totalChars + strlen (fr_content fileResult) >? MAX_CONTEXT_CHARS)%Z
        then finalProcessedFiles
        else budgetLoop (totalChars + strlen (fr_content fileResult))
                        (finalProcessedFiles ++ [fileResult]) rest
      else budgetLoop totalChars finalProcessedFiles rest
  end.

Definition fileBlock (r : FileResult) : jsstring :=
  lit "--- File: " ++ fr_name r ++ lit " ---" ++ [10%N] ++ fr_content r.

Record FolderResult := {
  fullContent : jsstring;
  processedCount : nat;
  totalValidFileCount : nat
}.

Definition finalProcessedFiles (files : list File) : list FileResult :=
  budgetLoop 0 [] (allResults (validFiles files)).

Definition processFolder (files : list File) : FolderResult :=
  let final := finalProcessedFiles files in
  {| fullContent := join [10%N; 10%N] (map fileBlock final);
     processedCount := List.length final;
     totalValidFileCount := List.length (validFiles files) |}.

(** ** JSON.parse

    The parser of the language, as a pushdown automaton that reads the
    text one code unit at a time (so it is structurally recursive on the
    text).  A number keeps its lexeme: only its type and its truthiness
    are ever observed by the program. *)

Module Json.

Inductive JsValue :=
| JNull
| JBool (b : bool)
| JNumber (lexeme : jsstring)
| JString (s : jsstring)
| JArray (items : list JsValue)
| JObject (members : list (jsstring * JsValue)).

(** Enclosing containers; their contents are kept in reverse. *)
Inductive Frame :=
| FArray (ritems : list JsValue)
| FObject (rmembers : list (jsstring * JsValue)) (key : jsstring).

Inductive NumState :=
| NMinus | NZero | NInt | NDot | NFrac | NExp | NExpSign | NExpDigits.

Inductive Mode :=
| ExpectValue
| ExpectValueOrClose
| ExpectKeyOrClose
| ExpectKey
| ExpectColon (key : jsstring)
| AfterValue (v : JsValue)
| InString (isKey : bool) (rchars : jsstring)
| InEscape (isKey : bool) (rchars : jsstring)
| InUnicode (isKey : bool) (rchars : jsstring) (pending : nat) (acc : N)
| InLiteral (remaining : jsstring) (v : JsValue)
| InNumber (ns : NumState) (rlexeme : jsstring).

Definition isJsonWs (c : N) : bool :=
  ((c =? 9) || (c =? 10) || (c =? 13) || (c =? 32))%N.

Definition isDigit (c : N) : bool := ((48 <=? c) && (c <=? 57))%N.

Definition hexValue (c : N) : option N :=
  if isDigit c then Some (c - 48)%N
  else if ((97 <=? c) && (c <=? 102))%N then Some (c - 87)%N
  else if ((65 <=? c) && (c <=? 70))%N then Some (c - 55)%N
  else None.

Definition numAccepting (ns : NumState) : bool :=
  match ns with
  | NZero | NInt | NFrac | NExpDigits => true
  | _ => false
  end.

(** One more code unit of a number, when the grammar allows it. *)
Definition numStep (ns : NumState) (c : N) : option NumState :=
  match ns with
  | NMinus => if (c =? 48)%N then Some NZero else if isDigit c then Some NInt else None
  | NZero =>
      if (c =? 46)%N then Some NDot
      else if ((c =? 101) || (c =? 69))%N then Some NExp else None
  | NInt =>
      if isDigit c then Some NInt
      else if (c =? 46)%N then Some NDot
      else if ((c =? 101) || (c =? 69))%N then Some NExp else None
  | NDot => if isDigit c then Some NFrac else None
  | NFrac =>
      if isDigit c then Some NFrac
      else if ((c =? 101) || (c =? 69))%N then Some NExp else None
  | NExp =>
      if ((c =? 43) || (c =? 45))%N then Some NExpSign
      else if isDigit c then Some NExpDigits else None
  | NExpSign => if isDigit c then Some NExpDigits else None
  | NExpDigits => if isDigit c then Some NExpDigits else None
  end.

(** What a complete value [v] may be followed by. *)
Definition afterValue (stack : list Frame) (v : JsValue) (c : N)
  : option (list Frame * Mode) :=
  if isJsonWs c then Some (stack, AfterValue v)
  else match stack with
       | FArray ritems :: up =>
           if (c =? 44)%N then Some (FArray (v :: ritems) :: up, ExpectValue)
           else if (c =? 93)%N then Some (up, AfterValue (JArray (rev (v :: ritems))))
           else None
       | FObject rmembers key :: up =>
           if (c =? 44)%N then Some (FObject ((key, v) :: rmembers) [] :: up, ExpectKey)
           else if (c =? 125)%N
           then Some (up, AfterValue (JObject (rev ((key, v) :: rmembers))))
           else None
       | [] => None
       end.

(** The first code unit of a value. *)
Definition startValue (stack : list Frame) (c : N) : option (list Frame * Mode) :=
  if (c =? 34)%N then Some (stack, InString false [])
  else if (c =? 91)%N then Some (FArray [] :: stack, ExpectValueOrClose)
  else if (c =? 123)%N then Some (FObject [] [] :: stack, ExpectKeyOrClose)
  else if (c =? 116)%N then Some (stack, InLiteral (lit "rue") (JBool true))
  else if (c =? 102)%N then Some (stack, InLiteral (lit "alse") (JBool false))
  else if (c =? 110)%N then Some (stack, InLiteral (lit "ull") JNull)
  else if (c =? 45)%N then Some (stack, InNumber NMinus [c])
  else if (c =? 48)%N then Some (stack, InNumber NZero [c])
  else if isDigit c then Some (stack, InNumber NInt [c])
  else None.

Definition endString (stack : list Frame) (isKey : bool) (s : jsstring)
  : list Frame * Mode :=
  if isKey then (stack, ExpectColon s) else (stack, AfterValue (JString s)).

Definition escapeUnit (c : N) : option N :=
  if ((c =? 34) || (c =? 92) || (c =? 47))%N then Some c
  else if (c =? 98)%N then Some 8%N
  else if (c =? 102)%N then Some 12%N
  else if (c =? 110)%N then Some 10%N
  else if (c =? 114)%N then Some 13%N
  else if (c =? 116)%N then Some 9%N
  else None.

Definition step (stack : list Frame) (mode : Mode) (c : N)
  : option (list Frame * Mode) :=
  match mode with
  | ExpectValue =>
      if isJsonWs c then Some (stack, ExpectValue) else startValue stack c
  | ExpectValueOrClose =>
      if isJsonWs c then Some (stack, ExpectValueOrClose)
      else if (c =? 93)%N
      then match stack with
           | FArray _ :: up => Some (up, AfterValue (JArray []))
           | _ => None
           end
      else startValue stack c
  | ExpectKeyOrClose =>
      if isJsonWs c then Some (stack, ExpectKeyOrClose)
      else if (c =? 125)%N
      then match stack with
           | FObject _ _ :: up => Some (up, AfterValue (JObject []))
           | _ => None
           end
      else if (c =? 34)%N then Some (stack, InString true [])
      else None
  | ExpectKey =>
      if isJsonWs c then Some (stack, ExpectKey)
      else if (c =? 34)%N then Some (stack, InString true [])
      else None
  | ExpectColon key =>
      if isJsonWs c then Some (stack, ExpectColon key)
      else if (c =? 58)%N
      then match stack with
           | FObject rmembers _ :: up => Some (FObject rmembers key :: up, ExpectValue)
           | _ => None
           end
      else None
  | AfterValue v => afterValue stack v c
  | InString isKey rchars =>
      if (c =? 34)%N then Some (endString stack isKey (rev rchars))
      else if (c =? 92)%N then Some (stack, InEscape isKey rchars)
      else if (c <? 32)%N then None
      else Some (stack, InString isKey (c :: rchars))
  | InEscape isKey rchars =>
      if (c =? 117)%N then Some (stack, InUnicode isKey rchars 4 0)
      else match escapeUnit c with
           | Some u => Some (stack, InString isKey (u :: rchars))
           | None => None
           end
  | InUnicode isKey rchars pending acc =>
      match hexValue c with
      | Some d =>
          let acc' := (acc * 16 + d)%N in
          match pending with
          | S (S pending') => Some (stack, InUnicode isKey rchars (S pending') acc')
          | _ => Some (stack, InString isKey (acc' :: rchars))
          end
      | None => None
      end
  | InLiteral remaining v =>
      match remaining with
      | x :: rest =>
          if (c =? x)%N
          then Some (stack, match rest with [] => AfterValue v | _ => InLiteral rest v end)
          else None
      | [] => None
      end
  | InNumber ns rlexeme =>
      match numStep ns c with
      | Some ns' => Some (stack, InNumber ns' (c :: rlexeme))
      | None =>
          if numAccepting ns then afterValue stack (JNumber (rev rlexeme)) c else None
      end
  end.

Definition finish (stack : list Frame) (mode : Mode) : option JsValue :=
  match stack, mode with
  | [], AfterValue v => Some v
  | [], InNumber ns rlexeme =>
      if numAccepting ns then Some (JNumber (rev rlexeme)) else None
  | _, _ => None
  end.

Fixpoint run (text : jsstring) (stack : list Frame) (mode : Mode) : option JsValue :=
  match text with
  | [] => finish stack mode
  | c :: rest =>
      match step stack mode c with
      | Some (stack', mode') => run rest stack' mode'
      | None => None
      end
  end.

(** [JSON.parse(text)]; [None] is a thrown SyntaxError. *)
Definition parse (text : jsstring) : option JsValue := run text [] ExpectValue.

(** ToBoolean of a parsed value.  A number is falsy when it is a zero,
    that is when its mantissa holds no non-zero digit (a literal too small
    for a double rounds to zero as well; the program treats every number
    alike, whatever its truthiness, see [asArray_property_truthy]). *)
Fixpoint mantissaNonZero (lexeme : jsstring) : bool :=
  match lexeme with
  | [] => false
  | c :: r =>
      if ((c =? 101) || (c =? 69))%N then false
      else ((49 <=? c) && (c <=? 57))%N || mantissaNonZero r
  end.

Definition toBoolean (v : JsValue) : bool :=
  match v with
  | JNull => false
  | JBool b => b
  | JNumber lexeme => mantissaNonZero lexeme
  | JString s => truthy s
  | JArray _ | JObject _ => true
  end.

(** The last member with the given key: the one [JSON.parse] leaves in
    the object when a key is repeated. *)
Fixpoint lookupMember (key : jsstring) (members : list (jsstring * JsValue))
  : option JsValue :=
  match members with
  | [] => None
  | (k, v) :: rest =>
      match lookupMember key rest with
      | Some v' => Some v'
      | None => if eqb k key then Some v else None
      end
  end.

(** [v.suggestions] for a parsed value other than [null]: only an object
    can own the property; [None] is [undefined]. *)
Definition getProperty (v : JsValue) (key : jsstring) : option JsValue :=
  match v with
  | JObject members => lookupMember key members
  | _ => None
  end.

(** [Array.isArray(x)], giving the elements. *)
Definition asArray (x : option JsValue) : option (list JsValue) :=
  match x with
  | Some (JArray items) => Some items
  | _ => None
  end.

(** [items.filter(s => typeof s === 'string')] *)
Fixpoint filterStrings (items : list JsValue) : list jsstring :=
  match items with
  | [] => []
  | JString s :: rest => s :: filterStrings rest
  | _ :: rest => filterStrings rest
  end.

End Json.

Import Json.

(** ** Regular expressions

    A backtracking matcher for the fragment of the language's regular
    expressions that [fenceRegex] uses.  A matcher returns every way of
    matching, most preferred first, so the head of the list is the match
    the backtracking search of the language finds. *)

Module Regex.

Inductive regex :=
| Bol                                   (* ^ (no m flag) *)
| Eol                                   (* $ (no m flag) *)
| Lit (s : jsstring)                    (* literal characters *)
| Star (greedy : bool) (cls : N -> bool) (* c* and c*? for a class c *)
| Opt (r : regex)                       (* r? *)
| Group (i : nat) (r : regex)           (* capturing group number i *)
| Seq (r1 r2 : regex).

Record MState := {
  pos : nat;                          (* index of the next code unit *)
  rest : jsstring;                    (* input from [pos] on *)
  caps : list (nat * jsstring)        (* captures, latest first *)
}.

Fixpoint dropPrefix (p s : jsstring) : option jsstring :=
  match p, s with
  | [], _ => Some s
  | x :: p', y :: s' => if (x =? y)%N then dropPrefix p' s' else None
  | _ :: _, [] => None
  end.

(** The states after zero, one, ... code units of the class, greedy ones
    longest first and lazy ones shortest first. *)
Fixpoint starRuns (greedy : bool) (cls : N -> bool) (p : nat) (s : jsstring)
         (caps : list (nat * jsstring)) : list MState :=
  let here := {| pos := p; rest := s; caps := caps |} in
  match s with
  | c :: r =>
      if cls c
      then if greedy then starRuns greedy cls (S p) r caps ++ [here]
           else here :: starRuns greedy cls (S p) r caps
      else [here]
  | [] => [here]
  end.

Fixpoint matches (r : regex) (st : MState) : list MState :=
  match r with
  | Bol => match pos st with O => [st] | S _ => [] end
  | Eol => match rest st with [] => [st] | _ :: _ => [] end
  | Lit s =>
      match dropPrefix s (rest st) with
      | Some s' => [{| pos := pos st + List.length s; rest := s'; caps := caps st |}]
      | None => []
      end
  | Star greedy cls => starRuns greedy cls (pos st) (rest st) (caps st)
  | Opt r1 =>
      (* an iteration that consumes nothing is refused *)
      filter (fun st' => negb (Nat.eqb (pos st') (pos st))) (matches r1 st) ++ [st]
  | Group i r1 =>
      map (fun st' =>
             {| pos := pos st'; rest := rest st';
                caps := (i, firstn (pos st' - pos st) (rest st)) :: caps st' |})
          (matches r1 st)
  | Seq r1 r2 => flat_map (matches r2) (matches r1 st)
  end.

(** [RegExp.prototype.exec] without the g and y flags: the first start
    index, from 0 upwards, at which the pattern matches. *)
Fixpoint execFrom (r : regex) (p : nat) (s : jsstring) : option MState :=
  match matches r {| pos := p; rest := s; caps := [] |} with
  | st :: _ => Some st
  | [] =>
      match s with
      | [] => None
      | _ :: s' => execFrom r (S p) s'
      end
  end.

(** [s.match(r)]: the captures of the match, if any. *)
Definition exec (r : regex) (s : jsstring) : option (list (nat * jsstring)) :=
  option_map caps (execFrom r 0 s).

(** [match[i]]; [None] is [undefined]. *)
Fixpoint capture (i : nat) (cs : list (nat * jsstring)) : option jsstring :=
  match cs with
  | [] => None
  | (j, s) :: more => if Nat.eqb i j then Some s else capture i more
  end.

(** \w *)
Definition isWord (c : N) : bool :=
  ((48 <=? c) && (c <=? 57) || (65 <=? c) && (c <=? 90)
   || (97 <=? c) && (c <=? 122) || (c =? 95))%N.

(** . under the s flag *)
Definition anyUnit (c : N) : bool := true.

Fixpoint seq (rs : list regex) : regex :=
  match rs with
  | [] => Lit []
  | [r] => r
  | r :: more => Seq r (seq more)
  end.

End Regex.

(** ** services/geminiService *)

Module Gemini.

Definition MODEL_NAME : jsstring := lit "gemini-2.5-flash".

Inductive HarmCategory :=
| HARM_CATEGORY_HARASSMENT | HARM_CATEGORY_HATE_SPEECH
| HARM_CATEGORY_SEXUALLY_EXPLICIT | HARM_CATEGORY_DANGEROUS_CONTENT.

Inductive HarmBlockThreshold := BLOCK_MEDIUM_AND_ABOVE.

Definition safetySettings : list (HarmCategory * HarmBlockThreshold) :=
  [ (HARM_CATEGORY_HARASSMENT, BLOCK_MEDIUM_AND_ABOVE);
    (HARM_CATEGORY_HATE_SPEECH, BLOCK_MEDIUM_AND_ABOVE);
    (HARM_CATEGORY_SEXUALLY_EXPLICIT, BLOCK_MEDIUM_AND_ABOVE);
    (HARM_CATEGORY_DANGEROUS_CONTENT, BLOCK_MEDIUM_AND_ABOVE) ].

(** [{ urlContext: { urls } }] *)
Inductive Tool := UrlContext (urls : list jsstring).

(** The [config] object of a call; an absent key is [None]. *)
Record Config := {
  tools : option (list Tool);
  cfg_safetySettings : list (HarmCategory * HarmBlockThreshold);
  responseMimeType : option jsstring
}.

Record Content := { role : jsstring; parts : list jsstring }.

(** The argument of [ai.models.generateContent]: one outbound call. *)
Record Request := {
  model : jsstring;
  contents : list Content;
  config : Config
}.

Record UrlContextMetadataItem := {
  retrievedUrl : jsstring;
  urlRetrievalStatus : jsstring
}.

(** What the backend answers: of [response.candidates?.[0]] only
    [urlContextMetadata] is read ([None]: no candidate or no metadata;
    [Some None]: metadata without a truthy [urlMetadata]). *)
Record GenerateContentResponse := {
  resp_text : option jsstring;
  resp_urlContextMetadata : option (option (list UrlContextMetadataItem))
}.

(** What the backend call throws. *)
Record Thrown := {
  isError : bool;                 (* error instanceof Error *)
  err_message : jsstring;         (* empty when absent *)
  err_type : jsstring
}.

Inductive BackendResult :=
| Answered (response : GenerateContentResponse)
| Failed (error : Thrown).

Record GeminiResponse := {
  text : option jsstring;
  urlContextMetadata : option (list UrlContextMetadataItem)
}.

(** A promise of the service, once settled. *)
Inductive Settled :=
| Resolved (response : GeminiResponse)
| Rejected (message : jsstring).

(** Where an async function of the service stands at its first await. *)
Inductive Call :=
| Returned (response : GeminiResponse)     (* no call was made *)
| Threw (message : jsstring)               (* no call was made *)
| Awaiting (request : Request).            (* one call is in flight *)

(** [process.env.API_KEY] is truthy. *)
Definition keySet (API_KEY : option jsstring) : bool :=
  match API_KEY with
  | Some k => truthy k
  | None => false
  end.

(** [getAiInstance]: [None] when it throws. *)
Definition getAiInstance (API_KEY : option jsstring) : option jsstring :=
  if keySet API_KEY then API_KEY else None.

Definition keyMissingMessage : jsstring :=
  lit "Gemini API 金鑰未設定。請設定 process.env.API_KEY。".

(** [s.includes(sub)] on strings *)
Fixpoint strIncludes (s sub : jsstring) : bool :=
  match Regex.dropPrefix sub s with
  | Some _ => true
  | None => match s with [] => false | _ :: s' => strIncludes s' sub end
  end.

(** [generateContentWithUrlContext], up to the call. *)
Definition generateContentWithUrlContext (API_KEY : option jsstring)
           (prompt : jsstring) (urls : list jsstring) (fileContent : option jsstring)
  : Call :=
  match getAiInstance API_KEY with
  | None => Threw keyMissingMessage
  | Some _ =>
      let tools := match urls with [] => [] | _ :: _ => [UrlContext urls] end in
      let fullPrompt := prompt ++ [10%N; 10%N] ++ lit "請用繁體中文回答。" in
      let fullPrompt :=
        match fileContent with
        | Some (c :: cs) =>
            fullPrompt ++ [10%N; 10%N] ++ lit "也請參考以下上傳的檔案內容："
                       ++ [10%N] ++ lit "---" ++ [10%N] ++ (c :: cs) ++ [10%N] ++ lit "---"
        | _ => fullPrompt
        end in
      Awaiting {| model := MODEL_NAME;
                  contents := [{| role := lit "user"; parts := [fullPrompt] |}];
                  config := {| tools := Some tools;
                               cfg_safetySettings := safetySettings;
                               responseMimeType := None |} |}
  end.

(** [generateContentWithUrlContext], from the answer of the call on. *)
Definition generateContentWithUrlContext_settle (r : BackendResult) : Settled :=
  match r with
  | Answered response =>
      Resolved {| text := resp_text response;
                  urlContextMetadata :=
                    match resp_urlContextMetadata response with
                    | Some (Some items) => Some items
                    | _ => None
                    end |}
  | Failed e =>
      if isError e then
        if truthy (err_message e) && strIncludes (err_message e) (lit "API key not valid")
        then Rejected (lit "API 金鑰無效。請檢查您的 GEMINI_API_KEY 環境變數。")
        else if truthy (err_message e) && strIncludes (err_message e) (lit "quota")
        then Rejected (lit "已超過 API 配額。請檢查您的 Gemini API 配額。")
        else if eqb (err_type e) (lit "GoogleGenAIError") && truthy (err_message e)
        then Rejected (lit "Gemini API 錯誤： " ++ err_message e)
        else Rejected (lit "無法從 AI 取得回應： " ++ err_message e)
      else Rejected (lit "因未知錯誤，無法從 AI 取得回應。")
  end.

Definition suggestionsPrompt (urls : list jsstring) : jsstring :=
  litq "根據以下文件 URL 的內容，提供 3-4 個開發人員可能會問的簡潔且可操作的問題，以探索這些文件。這些問題應適合作為快速入門的提示。請僅回傳一個 JSON 物件，其中包含一個名為 'suggestions' 的鍵，其值為這些問題字串的陣列。例如：{'suggestions': ['速率限制是多少？', '如何取得 API 金鑰？', '解釋一下模型 X。']}"
  ++ [10%N; 10%N] ++ lit "Relevant URLs:" ++ [10%N] ++ join [10%N] urls.

(** [JSON.stringify({ suggestions: [s] })] for the one literal it is
    applied to, which needs no escaping. *)
Definition fallbackSuggestionsText : jsstring :=
  litq "{'suggestions':['新增一些 URL 以取得主題建議。']}".

(** [getInitialSuggestions], up to the call. *)
Definition getInitialSuggestions (API_KEY : option jsstring) (urls : list jsstring)
  : Call :=
  match urls with
  | [] => Returned {| text := Some fallbackSuggestionsText; urlContextMetadata := None |}
  | _ :: _ =>
      match getAiInstance API_KEY with
      | None => Threw keyMissingMessage
      | Some _ =>
          Awaiting {| model := MODEL_NAME;
                      contents := [{| role := lit "user";
                                      parts := [suggestionsPrompt urls] |}];
                      config := {| tools := None;
                                   cfg_safetySettings := safetySettings;
                                   responseMimeType := Some (lit "application/json") |} |}
      end
  end.

(** [getInitialSuggestions], from the answer of the call on. *)
Definition getInitialSuggestions_settle (r : BackendResult) : Settled :=
  match r with
  | Answered response =>
      Resolved {| text := resp_text response; urlContextMetadata := None |}
  | Failed e =>
      if isError e then
        if truthy (err_message e) && strIncludes (err_message e) (lit "API key not valid")
        then Rejected (lit "用於建議的 API 金鑰無效。請檢查您的 GEMINI_API_KEY 環境變數。")
        else if truthy (err_message e)
                && strIncludes (err_message e)
                     (lit "Tool use with a response mime type: 'application/json' is unsupported")
        then Rejected (lit "設定錯誤：無法將工具與 JSON 回應類型一起用於建議。這應該在程式碼中修正。")
        else Rejected (lit "無法從 AI 取得初始建議： " ++ err_message e)
      else Rejected (lit "因未知錯誤，無法從 AI 取得初始建議。")
  end.

End Gemini.

(** ** types.ts *)

Inductive MessageSender := USER | MODEL | SYSTEM.

Record ChatMessage := {
  msg_id : jsstring;
  msg_text : jsstring;
  sender : MessageSender;
  timestamp : N;
  msg_isLoading : option bool;
  urlContext : option (list Gemini.UrlContextMetadataItem)
}.

Record URLGroup := {
  group_id : jsstring;
  group_name : jsstring;
  urls : list jsstring
}.

Inductive ContextType := CtxFile | CtxFolder.

Record LocalContext := {
  ctx_type : ContextType;
  ctx_name : jsstring;
  content : jsstring;
  count : nat
}.

(** ** App.tsx *)

Definition GEMINI_DOCS_URLS : list jsstring :=
  map lit [ "https://ai.google.dev/gemini-api/docs";
            "https://ai.google.dev/gemini-api/docs/quickstart";
            "https://ai.google.dev/gemini-api/docs/api-key";
            "https://ai.google.dev/gemini-api/docs/libraries";
            "https://ai.google.dev/gemini-api/docs/models";
            "https://ai.google.dev/gemini-api/docs/pricing";
            "https://ai.google.dev/gemini-api/docs/rate-limits";
            "https://ai.google.dev/gemini-api/docs/billing";
            "https://ai.google.dev/gemini-api/docs/changelog" ]%string.

Definition MODEL_CAPABILITIES_URLS : list jsstring :=
  map lit [ "https://ai.google.dev/gemini-api/docs/text-generation";
            "https://ai.google.dev/gemini-api/docs/image-generation";
            "https://ai.google.dev/gemini-api/docs/video";
            "https://ai.google.dev/gemini-api/docs/speech-generation";
            "https://ai.google.dev/gemini-api/docs/music-generation";
            "https://ai.google.dev/gemini-api/docs/long-context";
            "https://ai.google.dev/gemini-api/docs/structured-output";
            "https://ai.google.dev/gemini-api/docs/thinking";
            "https://ai.google.dev/gemini-api/docs/function-calling";
            "https://ai.google.dev/gemini-api/docs/document-processing";
            "https://ai.google.dev/gemini-api/docs/image-understanding";
            "https://ai.google.dev/gemini-api/docs/video-understanding";
            "https://ai.google.dev/gemini-api/docs/audio";
            "https://ai.google.dev/gemini-api/docs/code-execution";
            "https://ai.google.dev/gemini-api/docs/grounding" ]%string.

Definition INITIAL_URL_GROUPS : list URLGroup :=
  [ {| group_id := lit "gemini-overview"; group_name := lit "Gemini 文件總覽";
       urls := GEMINI_DOCS_URLS |};
    {| group_id := lit "model-capabilities"; group_name := lit "模型功能";
       urls := MODEL_CAPABILITIES_URLS |} ].

Definition MAX_URLS : nat := 50.

(** The state hooks of [App]. *)
Record AppState := {
  urlGroups : list URLGroup;
  activeUrlGroupId : jsstring;
  isSidebarOpen : bool;
  isAddGroupModalOpen : bool;
  chatMessages : list ChatMessage;
  isLoading : bool;
  isFetchingSuggestions : bool;
  initialQuerySuggestions : list jsstring;
  localContext : option LocalContext;
  isProcessingFiles : bool
}.

Definition setUrlGroups (st : AppState) (v : list URLGroup) : AppState :=
  {| urlGroups := v; activeUrlGroupId := activeUrlGroupId st;
     isSidebarOpen := isSidebarOpen st; isAddGroupModalOpen := isAddGroupModalOpen st;
     chatMessages := chatMessages st; isLoading := isLoading st;
     isFetchingSuggestions := isFetchingSuggestions st;
     initialQuerySuggestions := initialQuerySuggestions st;
     localContext := localContext st; isProcessingFiles := isProcessingFiles st |}.

Definition setActiveUrlGroupId (st : AppState) (v : jsstring) : AppState :=
  {| urlGroups := urlGroups st; activeUrlGroupId := v;
     isSidebarOpen := isSidebarOpen st; isAddGroupModalOpen := isAddGroupModalOpen st;
     chatMessages := chatMessages st; isLoading := isLoading st;
     isFetchingSuggestions := isFetchingSuggestions st;
     initialQuerySuggestions := initialQuerySuggestions st;
     localContext := localContext st; isProcessingFiles := isProcessingFiles st |}.

Definition setIsSidebarOpen (st : AppState) (v : bool) : AppState :=
  {| urlGroups := urlGroups st; activeUrlGroupId := activeUrlGroupId st;
     isSidebarOpen := v; isAddGroupModalOpen := isAddGroupModalOpen st;
     chatMessages := chatMessages st; isLoading := isLoading st;
     isFetchingSuggestions := isFetchingSuggestions st;
     initialQuerySuggestions := initialQuerySuggestions st;
     localContext := localContext st; isProcessingFiles := isProcessingFiles st |}.

Definition setIsAddGroupModalOpen (st : AppState) (v : bool) : AppState :=
  {| urlGroups := urlGroups st; activeUrlGroupId := activeUrlGroupId st;
     isSidebarOpen := isSidebarOpen st; isAddGroupModalOpen := v;
     chatMessages := chatMessages st; isLoading := isLoading st;
     isFetchingSuggestions := isFetchingSuggestions st;
     initialQuerySuggestions := initialQuerySuggestions st;
     localContext := localContext st; isProcessingFiles := isProcessingFiles st |}.

Definition setChatMessages (st : AppState) (v : list ChatMessage) : AppState :=
  {| urlGroups := urlGroups st; activeUrlGroupId := activeUrlGroupId st;
     isSidebarOpen := isSidebarOpen st; isAddGroupModalOpen := isAddGroupModalOpen st;
     chatMessages := v; isLoading := isLoading st;
     isFetchingSuggestions := isFetchingSuggestions st;
     initialQuerySuggestions := initialQuerySuggestions st;
     localContext := localContext st; isProcessingFiles := isProcessingFiles st |}.

Definition setIsLoading (st : AppState) (v : bool) : AppState :=
  {| urlGroups := urlGroups st; activeUrlGroupId := activeUrlGroupId st;
     isSidebarOpen := isSidebarOpen st; isAddGroupModalOpen := isAddGroupModalOpen st;
     chatMessages := chatMessages st; isLoading := v;
     isFetchingSuggestions := isFetchingSuggestions st;
     initialQuerySuggestions := initialQuerySuggestions st;
     localContext := localContext st; isProcessingFiles := isProcessingFiles st |}.

Definition setIsFetchingSuggestions (st : AppState) (v : bool) : AppState :=
  {| urlGroups := urlGroups st; activeUrlGroupId := activeUrlGroupId st;
     isSidebarOpen := isSidebarOpen st; isAddGroupModalOpen := isAddGroupModalOpen st;
     chatMessages := chatMessages st; isLoading := isLoading st;
     isFetchingSuggestions := v;
     initialQuerySuggestions := initialQuerySuggestions st;
     localContext := localContext st; isProcessingFiles := isProcessingFiles st |}.

Definition setInitialQuerySuggestions (st : AppState) (v : list jsstring) : AppState :=
  {| urlGroups := urlGroups st; activeUrlGroupId := activeUrlGroupId st;
     isSidebarOpen := isSidebarOpen st; isAddGroupModalOpen := isAddGroupModalOpen st;
     chatMessages := chatMessages st; isLoading := isLoading st;
     isFetchingSuggestions := isFetchingSuggestions st;
     initialQuerySuggestions := v;
     localContext := localContext st; isProcessingFiles := isProcessingFiles st |}.

Definition setLocalContext (st : AppState) (v : option LocalContext) : AppState :=
  {| urlGroups := urlGroups st; activeUrlGroupId := activeUrlGroupId st;
     isSidebarOpen := isSidebarOpen st; isAddGroupModalOpen := isAddGroupModalOpen st;
     chatMessages := chatMessages st; isLoading := isLoading st;
     isFetchingSuggestions := isFetchingSuggestions st;
     initialQuerySuggestions := initialQuerySuggestions st;
     localContext := v; isProcessingFiles := isProcessingFiles st |}.

Definition setIsProcessingFiles (st : AppState) (v : bool) : AppState :=
  {| urlGroups := urlGroups st; activeUrlGroupId := activeUrlGroupId st;
     isSidebarOpen := isSidebarOpen st; isAddGroupModalOpen := isAddGroupModalOpen st;
     chatMessages := chatMessages st; isLoading := isLoading st;
     isFetchingSuggestions := isFetchingSuggestions st;
     initialQuerySuggestions := initialQuerySuggestions st;
     localContext := localContext st; isProcessingFiles := v |}.

(** [setChatMessages(prev => [...prev, m])] *)
Definition appendMessage (st : AppState) (m : ChatMessage) : AppState :=
  setChatMessages st (chatMessages st ++ [m]).

(** A system message as the handlers build them: the id is a prefix
    followed by [Date.now()], the timestamp is [new Date()].  The clock is
    read once per run of a handler or callback. *)
Definition systemMessage (prefix : string) (now : N) (text : jsstring) : ChatMessage :=
  {| msg_id := lit prefix ++ ofNat now; msg_text := text; sender := SYSTEM;
     timestamp := now; msg_isLoading := None; urlContext := None |}.

Definition activeGroup (st : AppState) : option URLGroup :=
  find (fun group => eqb (group_id group) (activeUrlGroupId st)) (urlGroups st).

Definition currentUrlsForChat (st : AppState) : list jsstring :=
  match activeGroup st with
  | Some group => urls group
  | None => []
  end.

(** [a || b] on strings *)
Definition orElse (a b : jsstring) : jsstring := if truthy a then a else b.

(** [fenceRegex], flag s: start of input, three backticks, an optional
    group 1 of word characters (greedy), white space (greedy), an optional
    line feed, group 2 of any characters (lazy), an optional line feed,
    white space (greedy), three backticks, end of input. *)
Definition fenceRegex : Regex.regex :=
  Regex.seq
    [ Regex.Bol; Regex.Lit (lit "```");
      Regex.Opt (Regex.Group 1 (Regex.Star true Regex.isWord));
      Regex.Star true isWhiteSpace; Regex.Opt (Regex.Lit [10%N]);
      Regex.Group 2 (Regex.Star false Regex.anyUnit);
      Regex.Opt (Regex.Lit [10%N]); Regex.Star true isWhiteSpace;
      Regex.Lit (lit "```"); Regex.Eol ].

(** The string handed to [JSON.parse]. *)
Definition jsonStrOf (text : jsstring) : jsstring :=
  let jsonStr := trim text in
  match Regex.exec fenceRegex jsonStr with
  | Some m =>
      match Regex.capture 2 m with
      | Some (c :: cs) => trim (c :: cs)
      | _ => jsonStr
      end
  | None => jsonStr
  end.

(** The three ways out of the inner try block of
    [fetchAndSetInitialSuggestions]. *)
Inductive SuggestionParse :=
| Suggestions (suggestionsArray : list jsstring)
| BadFormat
| ParseError.

Definition parseSuggestions (text : jsstring) : SuggestionParse :=
  match Json.parse (jsonStrOf text) with
  | None => ParseError
  | Some parsed =>
      if Json.toBoolean parsed then
        match Json.asArray (Json.getProperty parsed (lit "suggestions")) with
        | Some items => Suggestions (Json.filterStrings items)
        | None => BadFormat
        end
      else BadFormat
  end.

Section App.

(** [process.env.API_KEY], fixed when the bundle is built; [None] when it
    is undefined. *)
Variable API_KEY : option jsstring.

(** The first effect of [App], with dependencies
    [[activeUrlGroupId, urlGroups]]. *)
Definition welcomeEffect (now : N) (st : AppState) : AppState :=
  let welcomeMessageText :=
    if negb (Gemini.keySet API_KEY)
    then lit "錯誤：Gemini API 金鑰 (process.env.API_KEY) 尚未設定。請設定此環境變數以使用本應用程式。"
    else lit "歡迎使用文件瀏覽器！您目前正在瀏覽的內容來自：「"
         ++ orElse (match activeGroup st with
                    | Some g => group_name g
                    | None => []
                    end) (lit "無")
         ++ lit "」。請直接向我提問，或嘗試下方的建議問題開始。" in
  setChatMessages (setLocalContext st None)
    [ {| msg_id := lit "system-welcome-" ++ activeUrlGroupId st ++ lit "-" ++ ofNat now;
         msg_text := welcomeMessageText; sender := SYSTEM; timestamp := now;
         msg_isLoading := None; urlContext := None |} ].

(** [fetchAndSetInitialSuggestions], from the settling of
    [getInitialSuggestions] on. *)
Definition fetchAndSetInitialSuggestions_settled (now : N) (s : Gemini.Settled)
           (st : AppState) : AppState :=
  match s with
  | Gemini.Resolved response =>
      let '(suggestionsArray, st1) :=
        match Gemini.text response with
        | Some (c :: cs) =>
            match parseSuggestions (c :: cs) with
            | Suggestions arr => (arr, st)
            | BadFormat =>
                ([], appendMessage st
                       (systemMessage "sys-err-suggestion-fmt-" now
                          (lit "收到的建議格式有誤。")))
            | ParseError =>
                ([], appendMessage st
                       (systemMessage "sys-err-suggestion-parse-" now
                          (lit "解析 AI 建議時發生錯誤。")))
            end
        | _ => ([], st)
        end in
      setIsFetchingSuggestions
        (setInitialQuerySuggestions st1 (firstn 4 suggestionsArray)) false
  | Gemini.Rejected message =>
      let errorMessage := orElse message (lit "無法擷取初始建議。") in
      setIsFetchingSuggestions
        (appendMessage st
           (systemMessage "sys-err-suggestion-fetch-" now
              (lit "擷取建議時發生錯誤： " ++ errorMessage))) false
  end.

(** [fetchAndSetInitialSuggestions], up to the await: the new state and the
    calls sent to the backend. *)
Definition fetchAndSetInitialSuggestions (now : N) (currentUrls : list jsstring)
           (st : AppState) : AppState * list Gemini.Request :=
  match currentUrls with
  | [] => (setInitialQuerySuggestions st [], [])
  | _ :: _ =>
      let st1 := setInitialQuerySuggestions (setIsFetchingSuggestions st true) [] in
      match Gemini.getInitialSuggestions API_KEY currentUrls with
      | Gemini.Awaiting request => (st1, [request])
      | Gemini.Returned response =>
          (fetchAndSetInitialSuggestions_settled now (Gemini.Resolved response) st1, [])
      | Gemini.Threw message =>
          (fetchAndSetInitialSuggestions_settled now (Gemini.Rejected message) st1, [])
      end
  end.

(** The second effect of [App], with dependencies
    [[currentUrlsForChat, fetchAndSetInitialSuggestions]]. *)
Definition suggestionsEffect (now : N) (st : AppState)
  : AppState * list Gemini.Request :=
  if (0 <? List.length (currentUrlsForChat st))%nat && Gemini.keySet API_KEY
  then fetchAndSetInitialSuggestions now (currentUrlsForChat st) st
  else (setInitialQuerySuggestions st [], []).

Definition handleAddUrl (url : jsstring) (st : AppState) : AppState :=
  setUrlGroups st
    (map (fun group =>
            if eqb (group_id group) (activeUrlGroupId st) then
              if (List.length (urls group) <? MAX_URLS)%nat
                 && negb (includes (urls group) url)
              then {| group_id := group_id group; group_name := group_name group;
                      urls := urls group ++ [url] |}
              else group
            else group)
         (urlGroups st)).

Definition handleRemoveUrl (urlToRemove : jsstring) (st : AppState) : AppState :=
  setUrlGroups st
    (map (fun group =>
            if eqb (group_id group) (activeUrlGroupId st) then
              {| group_id := group_id group; group_name := group_name group;
                 urls := filter (fun url => negb (eqb url urlToRemove)) (urls group) |}
            else group)
         (urlGroups st)).

(** [handleAddGroup]; [None] when the name is refused (an alert is shown
    and no state is set). *)
Definition handleAddGroup (now : N) (name : jsstring) (st : AppState)
  : option AppState :=
  if negb (truthy (trim name))
     || existsb (fun g => eqb (group_name g) (trim name)) (urlGroups st)
  then None
  else
    let newGroup := {| group_id := lit "group-" ++ ofNat now;
                       group_name := trim name; urls := [] |} in
    Some (setIsAddGroupModalOpen
            (setActiveUrlGroupId (setUrlGroups st (urlGroups st ++ [newGroup]))
                                 (group_id newGroup))
            false).

(** How a run of [handleRemoveGroup] ends. *)
Inductive RemoveGroupResult :=
| Refused                         (* alert, or the confirmation was declined *)
| Removed (st : AppState)
| RemovedThenThrew (st : AppState). (* [newGroups[0]] was undefined *)

(** [handleRemoveGroup]; [confirmed] is the answer to [window.confirm]. *)
Definition handleRemoveGroup (groupId : jsstring) (confirmed : bool) (st : AppState)
  : RemoveGroupResult :=
  if (List.length (urlGroups st) <=? 1)%nat then Refused
  else if confirmed then
    let newGroups := filter (fun g => negb (eqb (group_id g) groupId)) (urlGroups st) in
    let st1 := setUrlGroups st newGroups in
    if eqb (activeUrlGroupId st) groupId then
      match newGroups with
      | g :: _ => Removed (setActiveUrlGroupId st1 (group_id g))
      | [] => RemovedThenThrew st1
      end
    else Removed st1
  else Refused.

(** [handleFileUpload], up to the read of the file; the flag tells whether
    a read was started. *)
Definition handleFileUpload (now : N) (file : File) (st : AppState)
  : AppState * bool :=
  let extension := extensionOf file in
  if negb (includes ALLOWED_EXTENSIONS extension)
  then (appendMessage st
          (systemMessage "sys-file-error-type-" now
             (lit "不支援的檔案類型：「" ++ file_name file ++ lit "」。")), false)
  else (setIsProcessingFiles st true, true).

(** The first callback of [contentPromise.then]: the attached content and
    [wasTruncated]. *)
Definition truncateContent (content : jsstring) : jsstring * bool :=
  if (strlen content >? MAX_CONTEXT_CHARS)%Z
  then (substring content 0 MAX_CONTEXT_CHARS, true)
  else (content, false).

Definition truncationNotice : jsstring :=
  [10%N; 10%N] ++ lit "注意：檔案內容因過長已被截斷。".

(** [handleFileUpload], from the settling of the read on (the [then],
    [catch] and [finally] callbacks). *)
Definition handleFileUpload_settled (now : N) (file : File) (st : AppState)
  : AppState :=
  let st1 :=
    match readByExtension (extensionOf file) file with
    | Some content =>
        let '(finalContent, wasTruncated) := truncateContent content in
        let st' := setLocalContext st
                     (Some {| ctx_type := CtxFile; ctx_name := file_name file;
                              content := finalContent; count := 1 |}) in
        let systemMessageText :=
          lit "已成功讀取檔案：「" ++ file_name file ++ lit "」。其內容將會作為提問的上下文。"
          ++ (if wasTruncated then truncationNotice else []) in
        appendMessage st' (systemMessage "sys-file-upload-" now systemMessageText)
    | None =>
        appendMessage st
          (systemMessage "sys-file-error-read-" now
             (lit "讀取檔案「" ++ file_name file ++ lit "」時發生錯誤。"))
    end in
  setIsProcessingFiles st1 false.

(** [files[0]?.webkitRelativePath.split('/')[0] || '上傳的資料夾'] *)
Definition folderNameOf (files : list File) : jsstring :=
  orElse (match files with
          | f :: _ => hd [] (split 47 (webkitRelativePath f))
          | [] => []
          end) (lit "上傳的資料夾").

(** [handleFolderUpload], up to the call of [processFolder]. *)
Definition handleFolderUpload (now : N) (files : list File) (st : AppState)
  : AppState :=
  appendMessage (setIsProcessingFiles st true)
    (systemMessage "sys-folder-processing-" now
       (lit "正在處理資料夾「" ++ folderNameOf files ++ lit "」中的檔案...")).

(** [handleFolderUpload], from the settling of [processFolder] on.
    [processFolder] catches every failed read itself, so only the [then]
    and [finally] callbacks run. *)
Definition handleFolderUpload_settled (now : N) (files : list File) (st : AppState)
  : AppState :=
  let folderName := folderNameOf files in
  let r := processFolder files in
  let st1 :=
    if Nat.eqb (processedCount r) 0
    then appendMessage st
           (systemMessage "sys-folder-empty-" now
              (lit "在「" ++ folderName ++ lit "」資料夾中找不到可讀取的檔案。支援的格式為："
               ++ join (lit ", ") ALLOWED_EXTENSIONS))
    else
      let st' := setLocalContext st
                   (Some {| ctx_type := CtxFolder; ctx_name := folderName;
                            content := fullContent r; count := processedCount r |}) in
      let systemMessageText :=
        lit "已成功從「" ++ folderName ++ lit "」資料夾讀取 "
        ++ ofNat (N.of_nat (processedCount r))
        ++ lit " 個檔案。其內容將會作為提問的上下文。"
        ++ (if (processedCount r <? totalValidFileCount r)%nat
            then [10%N; 10%N] ++ lit "注意：因超出總長度限制，有 "
                 ++ ofNat (N.of_nat (totalValidFileCount r - processedCount r))
                 ++ lit " 個檔案未被載入。"
            else []) in
      appendMessage st' (systemMessage "sys-folder-upload-" now systemMessageText) in
  setIsProcessingFiles st1 false.

Definition handleLocalContextRemove (now : N) (st : AppState) : AppState :=
  let contextName := match localContext st with
                     | Some c => ctx_name c
                     | None => lit "undefined"
                     end in
  appendMessage (setLocalContext st None)
    (systemMessage "sys-context-remove-" now
       (lit "已移除本機上下文：「" ++ contextName ++ lit "」。")).

Definition modelPlaceholderMessage (sentAt : N) : ChatMessage :=
  {| msg_id := lit "model-response-" ++ ofNat sentAt; msg_text := lit "思考中...";
     sender := MODEL; timestamp := sentAt; msg_isLoading := Some true;
     urlContext := None |}.

(** [handleSendMessage], from the settling of
    [generateContentWithUrlContext] on; [sentAt] is the clock reading the
    placeholder was made with. *)
Definition handleSendMessage_settled (sentAt : N) (s : Gemini.Settled) (st : AppState)
  : AppState :=
  let placeholder := modelPlaceholderMessage sentAt in
  let final :=
    match s with
    | Gemini.Resolved response =>
        {| msg_id := msg_id placeholder;
           msg_text := orElse (match Gemini.text response with
                               | Some t => t
                               | None => []
                               end) (lit "我收到了空的回應。");
           sender := sender placeholder; timestamp := timestamp placeholder;
           msg_isLoading := Some false;
           urlContext := Gemini.urlContextMetadata response |}
    | Gemini.Rejected message =>
        {| msg_id := msg_id placeholder;
           msg_text := lit "錯誤： " ++ orElse message (lit "無法從 AI 取得回應。");
           sender := SYSTEM; timestamp := timestamp placeholder;
           msg_isLoading := Some false; urlContext := urlContext placeholder |}
    end in
  setIsLoading
    (setChatMessages st
       (map (fun msg => if eqb (msg_id msg) (msg_id placeholder) then final else msg)
            (chatMessages st)))
    false.

(** [handleSendMessage], up to the await: the new state and the calls sent
    to the backend. *)
Definition handleSendMessage (now : N) (query : jsstring) (st : AppState)
  : AppState * list Gemini.Request :=
  if negb (truthy (trim query)) || isLoading st || isFetchingSuggestions st
  then (st, [])
  else if negb (Gemini.keySet API_KEY)
  then (appendMessage st
          (systemMessage "error-apikey-" now
             (lit "錯誤：API 金鑰 (process.env.API_KEY) 尚未設定。請先設定才能傳送訊息。")),
        [])
  else
    let userMessage := {| msg_id := lit "user-" ++ ofNat now; msg_text := query;
                          sender := USER; timestamp := now; msg_isLoading := None;
                          urlContext := None |} in
    let st1 := setInitialQuerySuggestions (setIsLoading st true) [] in
    let st2 := setChatMessages st1
                 (chatMessages st1 ++ [userMessage; modelPlaceholderMessage now]) in
    match Gemini.generateContentWithUrlContext API_KEY query (currentUrlsForChat st)
            (option_map content (localContext st)) with
    | Gemini.Awaiting request => (st2, [request])
    | Gemini.Returned response =>
        (handleSendMessage_settled now (Gemini.Resolved response) st2, [])
    | Gemini.Threw message =>
        (handleSendMessage_settled now (Gemini.Rejected message) st2, [])
    end.

(** *** Renders and effects

    The props handed to [KnowledgeBaseManager] and [AddGroupModal] run a
    handler from a user event; React then renders and runs the first
    effect when [activeUrlGroupId] changed or [setUrlGroups] was called
    (every call in [App] installs a new array, built by [map], [filter] or
    a spread, which the dependency comparison sees as changed). *)

Definition onAddUrl (now : N) (url : jsstring) (st : AppState) : AppState :=
  welcomeEffect now (handleAddUrl url st).

Definition onRemoveUrl (now : N) (url : jsstring) (st : AppState) : AppState :=
  welcomeEffect now (handleRemoveUrl url st).

Definition onAdd (now : N) (name : jsstring) (st : AppState) : AppState :=
  match handleAddGroup now name st with
  | Some st' => welcomeEffect now st'
  | None => st
  end.

Definition onRemoveGroup (now : N) (groupId : jsstring) (confirmed : bool)
           (st : AppState) : AppState :=
  match handleRemoveGroup groupId confirmed st with
  | Refused => st
  | Removed st' => welcomeEffect now st'
  | RemovedThenThrew st' => welcomeEffect now st'
  end.

(** [onSetGroupId = setActiveUrlGroupId]: setting the value the state
    already has causes no render. *)
Definition onSetGroupId (now : N) (id : jsstring) (st : AppState) : AppState :=
  if eqb id (activeUrlGroupId st) then st
  else welcomeEffect now (setActiveUrlGroupId st id).

(** What can happen to a mounted [App]: user events, the settling of
    promises, a run of the second effect, and the opening and closing of
    the sidebar and of the modal. *)
Inductive Event :=
| OnAddUrl (url : jsstring)
| OnRemoveUrl (url : jsstring)
| OnAdd (name : jsstring)
| OnRemoveGroup (groupId : jsstring) (confirmed : bool)
| OnSetGroupId (id : jsstring)
| OnFileUpload (file : File)
| FileSettled (file : File)
| OnFolderUpload (files : list File)
| FolderSettled (files : list File)
| OnLocalContextRemove
| OnSendMessage (query : jsstring)
| SendSettled (sentAt : N) (answer : Gemini.BackendResult)
| SuggestionsEffect
| SuggestionsSettled (answer : Gemini.BackendResult)
| SetIsSidebarOpen (v : bool)
| SetIsAddGroupModalOpen (v : bool).

(** One event at clock reading [now]: the next state and the calls sent to
    the backend. *)
Definition step (now : N) (e : Event) (st : AppState)
  : AppState * list Gemini.Request :=
  match e with
  | OnAddUrl url => (onAddUrl now url st, [])
  | OnRemoveUrl url => (onRemoveUrl now url st, [])
  | OnAdd name => (onAdd now name st, [])
  | OnRemoveGroup groupId confirmed => (onRemoveGroup now groupId confirmed st, [])
  | OnSetGroupId id => (onSetGroupId now id st, [])
  | OnFileUpload file => (fst (handleFileUpload now file st), [])
  | FileSettled file => (handleFileUpload_settled now file st, [])
  | OnFolderUpload files => (handleFolderUpload now files st, [])
  | FolderSettled files => (handleFolderUpload_settled now files st, [])
  | OnLocalContextRemove => (handleLocalContextRemove now st, [])
  | OnSendMessage query => handleSendMessage now query st
  | SendSettled sentAt answer =>
      (handleSendMessage_settled sentAt
         (Gemini.generateContentWithUrlContext_settle answer) st, [])
  | SuggestionsEffect => suggestionsEffect now st
  | SuggestionsSettled answer =>
      (fetchAndSetInitialSuggestions_settled now
         (Gemini.getInitialSuggestions_settle answer) st, [])
  | SetIsSidebarOpen v => (setIsSidebarOpen st v, [])
  | SetIsAddGroupModalOpen v => (setIsAddGroupModalOpen st v, [])
  end.

(** The [useState] initial values. *)
Definition initialState : AppState :=
  {| urlGroups := INITIAL_URL_GROUPS;
     activeUrlGroupId := group_id (hd {| group_id := []; group_name := []; urls := [] |}
                                      INITIAL_URL_GROUPS);
     isSidebarOpen := false; isAddGroupModalOpen := false;
     chatMessages := []; isLoading := false; isFetchingSuggestions := false;
     initialQuerySuggestions := []; localContext := None;
     isProcessingFiles := false |}.

(** The states of a running [App]: the first effect runs on mount; after
    that events arrive in any order.  Settling events are not tied to the
    operation that started them and the second effect may run at any
    time, so every run of the program is covered. *)
Inductive reachable : AppState -> Prop :=
| reachable_mount : forall now, reachable (welcomeEffect now initialState)
| reachable_step : forall now e st,
    reachable st -> reachable (fst (step now e st)).

End App.

(** *** The placeholder of the chat input *)

Definition getChatPlaceholder (st : AppState) : jsstring :=
  let hasUrls := (0 <? List.length (currentUrlsForChat st))%nat in
  let hasLocalContext := match localContext st with Some _ => true | None => false end in
  if negb hasUrls && negb hasLocalContext
  then lit "請選擇一個群組並/或新增 URL 到知識庫以啟用聊天功能。"
  else
    let contextParts :=
      (if hasUrls
       then [lit "「" ++ orElse (match activeGroup st with
                                 | Some g => group_name g
                                 | None => []
                                 end) (lit "目前文件") ++ lit "」"]
       else [])
      ++ match localContext st with
         | Some c =>
             match ctx_type c with
             | CtxFile => [lit "檔案「" ++ ctx_name c ++ lit "」"]
             | CtxFolder => [lit "資料夾「" ++ ctx_name c ++ lit "」"]
             end
         | None => []
         end in
    lit "針對 " ++ join (lit " 及 ") contextParts ++ lit " 提問...".

(** ** services/fileProcessor: the text of a PDF

    [readPdfFile] asks pdf.js for the pages of the document and for the
    text items of each page; an item may lack the [str] field ([None]).
    What the function builds from them: *)

Definition pageText (items : list (option jsstring)) : jsstring :=
  join (lit " ") (map (fun item => match item with Some str => str | None => [] end) items).

Definition pdfFullText (pages : list (list (option jsstring))) : jsstring :=
  fold_left (fun fullText items => fullText ++ pageText items ++ [10%N]) pages [].

(** ** components/AddGroupModal *)

Module AddGroupModal.


End AddGroupModal.

(** ** components/KnowledgeBaseManager *)

Module KnowledgeBaseManager.

Section Manager.

(** [isValidUrl]: whether the URL constructor of the browser accepts the
    string. *)
Variable isValidUrl : jsstring -> bool.

(** The state hooks of the component that [handleAddUrl] touches. *)
Record State := {
  currentUrlInput : jsstring;
  error : option jsstring
}.

(** [handleAddUrl] for the props [urls] and [maxUrls]: the next state and
    the argument [onAddUrl] is called with, if it is called. *)
Definition handleAddUrl (urls : list jsstring) (maxUrls : nat) (s : State)
  : State * option jsstring :=
  if negb (truthy (trim (currentUrlInput s)))
  then ({| currentUrlInput := currentUrlInput s;
           error := Some (lit "URL 不能為空。") |}, None)
  else if negb (isValidUrl (currentUrlInput s))
  then ({| currentUrlInput := currentUrlInput s;
           error := Some (lit "URL 格式無效。請包含 http:// 或 https://") |}, None)
  else if (maxUrls <=? List.length urls)%nat
  then ({| currentUrlInput := currentUrlInput s;
           error := Some (lit "目前群組最多只能新增 " ++ ofNat (N.of_nat maxUrls)
                          ++ lit " 個 URL。") |}, None)
  else if includes urls (currentUrlInput s)
  then ({| currentUrlInput := currentUrlInput s;
           error := Some (lit "此 URL 已新增至目前群組。") |}, None)
  else ({| currentUrlInput := []; error := None |}, Some (currentUrlInput s)).

End Manager.

(** [handleFileSelect]: the file [onFileUpload] is called with. *)
Definition handleFileSelect (files : option (list File)) : option File :=
  match files with
  | Some (file :: _) => Some file
  | _ => None
  end.

(** [handleFolderSelect]: the files [onFolderUpload] is called with. *)
Definition handleFolderSelect (files : option (list File)) : option (list File) :=
  match files with
  | Some (f :: fs) => Some (f :: fs)
  | _ => None
  end.

End KnowledgeBaseManager.

(** ** Vocabulary of the properties *)

(** Sum of the text lengths of a list of file results. *)
Fixpoint totalLength (rs : list FileResult) : Z :=
  match rs with
  | [] => 0
  | r :: rest => strlen (fr_content r) + totalLength rest
  end.

(** The request carries a grounding-tool URL list. *)
Definition hasUrlContext (r : Gemini.Request) : bool :=
  match Gemini.tools (Gemini.config r) with
  | Some ts => existsb (fun t => match t with Gemini.UrlContext _ => true end) ts
  | None => false
  end.

(** The request carries the JSON-response-mode flag. *)
Definition hasResponseMimeType (r : Gemini.Request) : bool :=
  match Gemini.responseMimeType (Gemini.config r) with
  | Some _ => true
  | None => false
  end.

(** The welcome message posted by the first effect for group [id]. *)
Definition isWelcomeFor (id : jsstring) (now : N) (m : ChatMessage) : Prop :=
  sender m = SYSTEM
  /\ msg_id m = lit "system-welcome-" ++ id ++ lit "-" ++ ofNat now
  /\ timestamp m = now.







(** ** Concrete inputs used below *)

(** A file named [n] of [bytes] bytes under folder d whose read resolves
    to [t]. *)
Definition textFile (n : string) (bytes : N) (t : jsstring) : File :=
  {| file_name := lit n; webkitRelativePath := lit "d/" ++ lit n;
     file_size := bytes;
     file_read := fun _ => Some t |}.

(** A text of [n] letters a. *)
Definition lettersA (n : Z) : jsstring := repeat 97%N (Z.to_nat n).

(** A folder holding one file whose text fills the budget exactly. *)
Definition fullBudgetFolder : list File :=
  [textFile "a.txt" 1000000 (lettersA MAX_CONTEXT_CHARS)].




(** A configured credential. *)
Definition sampleKey : option jsstring := Some (lit "k").

(** The mounted application at clock reading 0. *)
Definition mounted (API_KEY : option jsstring) : AppState :=
  welcomeEffect API_KEY 0 initialState.

(** The mounted application after a small text file was attached and the
    user was told so. *)
Definition withAttachedFile (API_KEY : option jsstring) : AppState :=
  handleFileUpload_settled 2 (textFile "notes.txt" 5 (lit "hello"))
    (fst (handleFileUpload 1 (textFile "notes.txt" 5 (lit "hello")) (mounted API_KEY))).

(** The call [generateContentWithUrlContext] sends for the query hi over
    the URLs of the first group, with no file content. *)
Definition sampleAnswerRequest : Gemini.Request :=
  {| Gemini.model := Gemini.MODEL_NAME;
     Gemini.contents :=
       [{| Gemini.role := lit "user";
           Gemini.parts := [lit "hi" ++ [10%N; 10%N] ++ lit "請用繁體中文回答。"] |}];
     Gemini.config := {| Gemini.tools := Some [Gemini.UrlContext GEMINI_DOCS_URLS];
                         Gemini.cfg_safetySettings := Gemini.safetySettings;
                         Gemini.responseMimeType := None |} |}.

(** The call [getInitialSuggestions] sends for the URLs of the first group. *)
Definition sampleSuggestionsRequest : Gemini.Request :=
  {| Gemini.model := Gemini.MODEL_NAME;
     Gemini.contents :=
       [{| Gemini.role := lit "user";
           Gemini.parts := [Gemini.suggestionsPrompt GEMINI_DOCS_URLS] |}];
     Gemini.config := {| Gemini.tools := None;
                         Gemini.cfg_safetySettings := Gemini.safetySettings;
                         Gemini.responseMimeType := Some (lit "application/json") |} |}.

(** A folder of three text files of 400000 characters each. *)
Definition threeFilesFolder : list File :=
  [ textFile "a.txt" 400000 (lettersA 400000);
    textFile "b.txt" 400000 (lettersA 400000);
    textFile "c.txt" 400000 (lettersA 400000) ].

(** Length of the header lines [fileBlock] puts before the texts. *)
Fixpoint headerLength (rs : list FileResult) : Z :=
  match rs with
  | [] => 0
  | r :: rest => strlen (fr_name r) + 15 + headerLength rest
  end.

(** The file takes no part in the merge of a folder: it is not eligible,
    or its read fails, or its text is blank. *)
Definition contributesNothing (f : File) : Prop :=
  isValidFile f = false
  \/ readByExtension (extensionOf f) f = None
  \/ exists t, readByExtension (extensionOf f) f = Some t
               /\ hasContent {| fr_name := webkitRelativePath f; fr_content := t |} = false.

(** A file of the given name whose read is rejected. *)
Definition unreadableFile (n : string) : File :=
  {| file_name := lit n; webkitRelativePath := lit "d/" ++ lit n; file_size := 7;
     file_read := fun _ => None |}.

(** A small folder: two text files around one that cannot be read. *)
Definition smallFolder : list File :=
  [ textFile "a.txt" 5 (lit "hello"); unreadableFile "b.pdf";
    textFile "c.MD" 5 (lit "world") ].

(** What holds of an attached context: it counts at least one file, and
    a context of type file counts one and fits the budget. *)
Definition contextWellFormed (o : option LocalContext) : Prop :=
  match o with
  | None => True
  | Some c =>
      (1 <= count c)%nat
      /\ (ctx_type c = CtxFile ->
          count c = 1%nat /\ (strlen (content c) <= MAX_CONTEXT_CHARS)%Z)
  end.

(** A whole single-file upload: [handleFileUpload], then its callbacks at
    clock reading [later] when a read was started. *)
Definition uploadFile (now later : N) (file : File) (st : AppState) : AppState :=
  let '(st1, started) := handleFileUpload now file st in
  if started then handleFileUpload_settled later file st1 else st1.

(** A whole folder upload: [handleFolderUpload], then its callbacks. *)
Definition uploadFolder (now later : N) (files : list File) (st : AppState) : AppState :=
  handleFolderUpload_settled later files (handleFolderUpload now files st).

(** No string occurs twice in the list. *)
Fixpoint noDupB (l : list jsstring) : bool :=
  match l with
  | [] => true
  | x :: r => negb (includes r x) && noDupB r
  end.

(** What holds of the group collection: names are pairwise distinct, and
    each group holds at most [MAX_URLS] URLs, none of them twice. *)
Definition groupsWellFormed (groups : list URLGroup) : Prop :=
  NoDup (map group_name groups)
  /\ Forall (fun g => (List.length (urls g) <= MAX_URLS)%nat /\ NoDup (urls g)) groups.

(** A failure of the backend for lack of quota. *)
Definition quotaFailure : Gemini.BackendResult :=
  Gemini.Failed {| Gemini.isError := true;
                   Gemini.err_message := lit "You exceeded your current quota";
                   Gemini.err_type := [] |}.

(** A failure whose message names both an invalid key and the quota. *)
Definition mixedFailure : Gemini.Thrown :=
  {| Gemini.isError := true;
     Gemini.err_message := lit "API key not valid; quota unknown";
     Gemini.err_type := lit "GoogleGenAIError" |}.

(** * Properties *)

(** ** Strings *)

Lemma eqb_refl (a : jsstring) : eqb a a = true.
Proof.
  induction a as [|x a IH]; simpl; [reflexivity|].
  now rewrite N.eqb_refl, IH.
Qed.

Lemma eqb_eq (a b : jsstring) : eqb a b = true <-> a = b.
Proof.
  split.
  - revert b; induction a as [|x a IH]; intros [|y b] H; simpl in H;
      try discriminate; [reflexivity|].
    apply andb_true_iff in H as [Hx Hr].
    apply N.eqb_eq in Hx; subst y. now rewrite (IH b Hr).
  - intros ->. apply eqb_refl.
Qed.

Lemma eqb_neq (a b : jsstring) : eqb a b = false <-> a <> b.
Proof.
  rewrite <- eqb_eq. destruct (eqb a b); split; intro H; congruence.
Qed.

Lemma strlen_nonneg (s : jsstring) : (0 <= strlen s)%Z.
Proof. unfold strlen; lia. Qed.

Lemma strlen_app (a b : jsstring) : strlen (a ++ b) = (strlen a + strlen b)%Z.
Proof. unfold strlen. rewrite length_app. lia. Qed.

Lemma strlen_firstn (n : Z) (s : jsstring) :
  (0 <= n <= strlen s)%Z -> strlen (firstn (Z.to_nat n) s) = n.
Proof.
  unfold strlen. intros H. rewrite length_firstn. lia.
Qed.

(** [s.substring(0, n)] keeps the first [n] code units. *)
Lemma substring_prefix (s : jsstring) (n : Z) :
  (0 <= n)%Z -> substring s 0 n = firstn (Z.to_nat n) s.
Proof.
  intros Hn. unfold substring.
  pose proof (strlen_nonneg s) as Hs.
  replace (Z.min (Z.max 0 0) (strlen s)) with 0%Z by lia.
  replace (Z.max n 0) with n by lia.
  replace (Z.min 0 (Z.min n (strlen s))) with 0%Z by lia.
  replace (Z.max 0 (Z.min n (strlen s)) - 0)%Z with (Z.min n (strlen s)) by lia.
  simpl skipn.
  destruct (Z_le_gt_dec n (strlen s)) as [Hle|Hgt].
  - now replace (Z.min n (strlen s)) with n by lia.
  - replace (Z.min n (strlen s)) with (strlen s) by lia.
    unfold strlen in *. rewrite Nat2Z.id.
    rewrite firstn_all. symmetry. apply firstn_all2. lia.
Qed.

Lemma trimStart_keeps (l : jsstring) (c : N) :
  In c l -> isWhiteSpace c = false -> trimStart l <> [].
Proof.
  induction l as [|x l IH]; intros Hin Hc; [contradiction|].
  simpl. destruct (isWhiteSpace x) eqn:Hx.
  - destruct Hin as [->|Hin]; [congruence | now apply IH].
  - discriminate.
Qed.

(** A string that starts with a printing character is not blank. *)
Lemma trim_truthy (c : N) (s : jsstring) :
  isWhiteSpace c = false -> truthy (trim (c :: s)) = true.
Proof.
  intros Hc. unfold trim, trimEnd. simpl trimStart at 2. rewrite Hc.
  destruct (trimStart (rev (c :: s))) as [|y l] eqn:E.
  - exfalso. apply (@trimStart_keeps (rev (c :: s)) c); auto.
    apply in_rev. rewrite rev_involutive. now left.
  - simpl rev. destruct (rev l); reflexivity.
Qed.

(** ** The budget loop of [processFolder] *)

Lemma totalLength_app (a b : list FileResult) :
  totalLength (a ++ b) = (totalLength a + totalLength b)%Z.
Proof. induction a as [|r a IH]; simpl; [reflexivity | rewrite IH; lia]. Qed.

(** The loop appends to what it holds a prefix of the results that have
    content, keeps the running total within the budget, and stops exactly
    at the first result that does not fit. *)
Lemma budgetLoop_prefix (results acc : list FileResult) :
  (totalLength acc <= MAX_CONTEXT_CHARS)%Z ->
  exists incl excl,
    filter hasContent results = incl ++ excl
    /\ budgetLoop (totalLength acc) acc results = acc ++ incl
    /\ (totalLength (acc ++ incl) <= MAX_CONTEXT_CHARS)%Z
    /\ match excl with
       | [] => True
       | k :: _ =>
           (totalLength (acc ++ incl) + strlen (fr_content k) > MAX_CONTEXT_CHARS)%Z
       end.
Proof.
  revert acc; induction results as [|r results IH]; intros acc Hacc.
  - exists [], []. simpl. rewrite app_nil_r. auto.
  - simpl. destruct (hasContent r) eqn:Hr.
    + destruct (totalLength acc + strlen (fr_content r) >? MAX_CONTEXT_CHARS)%Z eqn:Hover.
      * exists [], (r :: filter hasContent results).
        rewrite app_nil_r. repeat split; auto. lia.
      * assert (Hacc' : (totalLength (acc ++ [r]) <= MAX_CONTEXT_CHARS)%Z).
        { rewrite totalLength_app. simpl. lia. }
        destruct (IH (acc ++ [r]) Hacc') as (incl & excl & Hf & Hl & Hs & Hk).
        exists (r :: incl), excl.
        rewrite totalLength_app in Hl. simpl totalLength in Hl.
        rewrite Z.add_0_r in Hl.
        rewrite <- app_assoc in Hl, Hs, Hk. simpl in Hl, Hs, Hk.
        repeat split; auto. simpl. now rewrite Hf.
    + destruct (IH acc Hacc) as (incl & excl & Hf & Hl & Hs & Hk).
      exists incl, excl. auto.
Qed.

Lemma allResults_length (valid : list File) :
  (List.length (allResults valid) <= List.length valid)%nat.
Proof.
  induction valid as [|f valid IH]; simpl; [lia|].
  destruct (readByExtension (extensionOf f) f); simpl; lia.
Qed.

(** The results keep the order in which the files were handed in. *)
Lemma allResults_validFiles_order (files : list File) :
  allResults (validFiles files)
  = flat_map (fun f =>
                if isValidFile f then
                  match readByExtension (extensionOf f) f with
                  | Some c => [{| fr_name := webkitRelativePath f; fr_content := c |}]
                  | None => []
                  end
                else []) files.
Proof.
  induction files as [|f files IH]; simpl; [reflexivity|].
  destruct (isValidFile f); simpl; [|exact IH].
  destruct (readByExtension (extensionOf f) f); simpl; now rewrite IH.
Qed.

(** A folder of one valid file whose text has content and fits the budget:
    the merged text is the header line of the file followed by its text. *)
Lemma processFolder_single (f : File) (t : jsstring) :
  isValidFile f = true ->
  readByExtension (extensionOf f) f = Some t ->
  hasContent {| fr_name := webkitRelativePath f; fr_content := t |} = true ->
  (strlen t <= MAX_CONTEXT_CHARS)%Z ->
  processFolder [f]
  = {| fullContent := fileBlock {| fr_name := webkitRelativePath f; fr_content := t |};
       processedCount := 1; totalValidFileCount := 1 |}.
Proof.
  intros Hv Hr Hc Hlen.
  unfold processFolder, finalProcessedFiles, validFiles.
  simpl filter. rewrite Hv. simpl allResults. rewrite Hr.
  simpl budgetLoop. rewrite Hc. simpl fr_content.
  assert (E : (strlen t >? MAX_CONTEXT_CHARS)%Z = false)
    by (rewrite Z.gtb_ltb; apply Z.ltb_ge; lia).
  rewrite E. reflexivity.
Qed.

Lemma strlen_lettersA (n : Z) : (0 <= n)%Z -> strlen (lettersA n) = n.
Proof. intros H. unfold strlen, lettersA. rewrite repeat_length. lia. Qed.

Lemma lettersA_cons (n : Z) : (0 < n)%Z -> lettersA n = 97%N :: lettersA (n - 1).
Proof.
  intros H. unfold lettersA.
  replace (Z.to_nat n) with (S (Z.to_nat (n - 1))) by lia. reflexivity.
Qed.

Lemma hasContent_lettersA (name : jsstring) (n : Z) :
  (0 < n)%Z -> hasContent {| fr_name := name; fr_content := lettersA n |} = true.
Proof.
  intros H. unfold hasContent. simpl fr_content. rewrite (lettersA_cons H).
  rewrite trim_truthy by reflexivity. reflexivity.
Qed.

(** What [handleFolderUpload] attaches for a folder d that holds the one
    text file a.txt with text [t]. *)
Lemma folder_of_one_attached (now : N) (st : AppState) (t : jsstring) :
  hasContent {| fr_name := lit "d/a.txt"; fr_content := t |} = true ->
  (strlen t <= MAX_CONTEXT_CHARS)%Z ->
  localContext (handleFolderUpload_settled now [textFile "a.txt" 1000000 t] st)
  = Some {| ctx_type := CtxFolder; ctx_name := lit "d";
            content := lit "--- File: d/a.txt ---" ++ [10%N] ++ t; count := 1 |}.
Proof.
  intros Hc Hlen. unfold handleFolderUpload_settled.
  rewrite (@processFolder_single (textFile "a.txt" 1000000 t) t);
    [ | reflexivity | reflexivity | exact Hc | exact Hlen ].
  reflexivity.
Qed.

(** C1 (the code departs from the invariant): the content attached by a
    folder upload can be longer than [MAX_CONTEXT_CHARS].  For a folder
    whose only file has a text of exactly [MAX_CONTEXT_CHARS] characters
    the file passes the budget test, and the attached content is that text
    behind its header line of 22 characters. *)
Theorem C1_folder_content_exceeds_budget :
  forall (now : N) (st : AppState),
    exists ctx,
      localContext (handleFolderUpload_settled now fullBudgetFolder st) = Some ctx
      /\ ctx_type ctx = CtxFolder
      /\ strlen (content ctx) = (MAX_CONTEXT_CHARS + 22)%Z
      /\ (strlen (content ctx) > MAX_CONTEXT_CHARS)%Z.
Proof.
  intros now st. unfold fullBudgetFolder.
  assert (Hmax : (0 < MAX_CONTEXT_CHARS)%Z) by (unfold MAX_CONTEXT_CHARS; lia).
  rewrite folder_of_one_attached.
  - eexists; split; [reflexivity|]. split; [reflexivity|].
    cbv beta iota delta [content].
    rewrite !strlen_app, strlen_lettersA by lia.
    change (strlen (lit "--- File: d/a.txt ---")) with 21%Z.
    change (strlen [10%N]) with 1%Z. lia.
  - apply (hasContent_lettersA (lit "d/a.txt") Hmax).
  - rewrite strlen_lettersA; lia.
Qed.

(** C2: a single-file upload whose extracted text is longer than
    [MAX_CONTEXT_CHARS] attaches exactly the first [MAX_CONTEXT_CHARS]
    characters of the text, with [wasTruncated] set and the truncation
    notice in the message; otherwise it attaches the text itself, with
    [wasTruncated] unset and no notice. *)
Theorem C2_single_file_truncation :
  forall (now : N) (file : File) (st : AppState) (text : jsstring),
    readByExtension (extensionOf file) file = Some text ->
    let st' := handleFileUpload_settled now file st in
    ((strlen text > MAX_CONTEXT_CHARS)%Z ->
       localContext st'
       = Some {| ctx_type := CtxFile; ctx_name := file_name file;
                 content := firstn (Z.to_nat MAX_CONTEXT_CHARS) text; count := 1 |}
       /\ strlen (firstn (Z.to_nat MAX_CONTEXT_CHARS) text) = MAX_CONTEXT_CHARS
       /\ snd (truncateContent text) = true
       /\ chatMessages st'
          = chatMessages st
            ++ [systemMessage "sys-file-upload-" now
                  (lit "已成功讀取檔案：「" ++ file_name file
                   ++ lit "」。其內容將會作為提問的上下文。" ++ truncationNotice)])
    /\ ((strlen text <= MAX_CONTEXT_CHARS)%Z ->
          localContext st'
          = Some {| ctx_type := CtxFile; ctx_name := file_name file;
                    content := text; count := 1 |}
          /\ snd (truncateContent text) = false
          /\ chatMessages st'
             = chatMessages st
               ++ [systemMessage "sys-file-upload-" now
                     (lit "已成功讀取檔案：「" ++ file_name file
                      ++ lit "」。其內容將會作為提問的上下文。")]).
Proof.
  intros now file st text Hread st'. subst st'.
  assert (Hmax : (0 <= MAX_CONTEXT_CHARS)%Z) by (unfold MAX_CONTEXT_CHARS; lia).
  unfold handleFileUpload_settled. rewrite Hread. unfold truncateContent.
  split; intros Hlen.
  - assert (E : (strlen text >? MAX_CONTEXT_CHARS)%Z = true)
      by (rewrite Z.gtb_ltb; apply Z.ltb_lt; lia).
    rewrite E, (substring_prefix text Hmax).
    repeat split. apply strlen_firstn. lia.
  - assert (E : (strlen text >? MAX_CONTEXT_CHARS)%Z = false)
      by (rewrite Z.gtb_ltb; apply Z.ltb_ge; lia).
    rewrite E. cbv beta iota zeta. rewrite !app_nil_r. repeat split.
Qed.

Lemma readByExtension_textFile (n : string) (bytes : N) (t : jsstring) :
  readByExtension (lit ".txt") (textFile n bytes t) = Some t.
Proof. reflexivity. Qed.

(** C2 at two uploads: a text of five characters is attached whole; a
    text of [MAX_CONTEXT_CHARS + 1] characters is cut to its first
    [MAX_CONTEXT_CHARS]. *)
Lemma C2_single_file_truncation_witness :
  localContext (handleFileUpload_settled 2 (textFile "notes.txt" 5 (lit "hello"))
                  (mounted None))
  = Some {| ctx_type := CtxFile; ctx_name := lit "notes.txt";
            content := lit "hello"; count := 1 |}
  /\ localContext
       (handleFileUpload_settled 2
          (textFile "big.txt" 1000001 (lettersA (MAX_CONTEXT_CHARS + 1)))
          (mounted None))
     = Some {| ctx_type := CtxFile; ctx_name := lit "big.txt";
               content := firstn (Z.to_nat MAX_CONTEXT_CHARS)
                            (lettersA (MAX_CONTEXT_CHARS + 1));
               count := 1 |}.
Proof.
  split.
  - apply (@C2_single_file_truncation 2 (textFile "notes.txt" 5 (lit "hello"))
             (mounted None) (lit "hello")
             (readByExtension_textFile "notes.txt" 5 (lit "hello"))).
    unfold MAX_CONTEXT_CHARS. vm_compute. discriminate.
  - generalize (@strlen_lettersA (MAX_CONTEXT_CHARS + 1)).
    generalize (lettersA (MAX_CONTEXT_CHARS + 1)). intros t Ht.
    apply (@C2_single_file_truncation 2 (textFile "big.txt" 1000001 t)
             (mounted None) t (readByExtension_textFile "big.txt" 1000001 t)).
    rewrite Ht; unfold MAX_CONTEXT_CHARS; lia.
Defined.

(** C3: in a folder upload the results are taken in the order of the
    files (last conjunct); of those that have content, exactly a prefix is
    merged, every text whole and behind its own header; the first result
    left out is the first whose length would take the running total over
    [MAX_CONTEXT_CHARS], and everything after it is left out as well. *)
Theorem C3_folder_prefix_greedy :
  forall (files : list File),
    exists excluded,
      filter hasContent (allResults (validFiles files))
      = finalProcessedFiles files ++ excluded
      /\ (totalLength (finalProcessedFiles files) <= MAX_CONTEXT_CHARS)%Z
      /\ match excluded with
         | [] => True
         | k :: _ =>
             (totalLength (finalProcessedFiles files) + strlen (fr_content k)
              > MAX_CONTEXT_CHARS)%Z
         end
      /\ fullContent (processFolder files)
         = join [10%N; 10%N] (map fileBlock (finalProcessedFiles files))
      /\ allResults (validFiles files)
         = flat_map
             (fun f =>
                if isValidFile f then
                  match readByExtension (extensionOf f) f with
                  | Some c => [{| fr_name := webkitRelativePath f; fr_content := c |}]
                  | None => []
                  end
                else []) files.
Proof.
  intros files. unfold finalProcessedFiles.
  assert (H0 : (totalLength [] <= MAX_CONTEXT_CHARS)%Z)
    by (unfold MAX_CONTEXT_CHARS; simpl; lia).
  destruct (@budgetLoop_prefix (allResults (validFiles files)) [] H0)
    as (incl & excl & Hf & Hl & Hs & Hk).
  simpl in Hl, Hs, Hk. exists excl. rewrite Hl. repeat split; auto.
  - unfold processFolder, finalProcessedFiles. simpl. now rewrite Hl.
  - apply allResults_validFiles_order.
Qed.

Lemma filter_length_le {A : Type} (p : A -> bool) (l : list A) :
  (List.length (filter p l) <= List.length l)%nat.
Proof.
  induction l as [|x l IH]; simpl; [lia|]. destruct (p x); simpl; lia.
Qed.

(** The loop on three results of equal length [n], two of which fit. *)
Lemma budgetLoop_two_of_three (t : jsstring) (a b c : jsstring) :
  truthy t && truthy (trim t) = true ->
  (2 * strlen t <= MAX_CONTEXT_CHARS < 3 * strlen t)%Z ->
  budgetLoop 0 []
    [ {| fr_name := a; fr_content := t |}; {| fr_name := b; fr_content := t |};
      {| fr_name := c; fr_content := t |} ]
  = [ {| fr_name := a; fr_content := t |}; {| fr_name := b; fr_content := t |} ].
Proof.
  intros Hc Hlen. pose proof (strlen_nonneg t) as Hn.
  cbn [budgetLoop]. unfold hasContent. cbn [fr_content]. rewrite Hc.
  assert (E1 : (0 + strlen t >? MAX_CONTEXT_CHARS)%Z = false)
    by (rewrite Z.gtb_ltb; apply Z.ltb_ge; lia).
  assert (E2 : (0 + strlen t + strlen t >? MAX_CONTEXT_CHARS)%Z = false)
    by (rewrite Z.gtb_ltb; apply Z.ltb_ge; lia).
  assert (E3 : (0 + strlen t + strlen t + strlen t >? MAX_CONTEXT_CHARS)%Z = true)
    by (rewrite Z.gtb_ltb; apply Z.ltb_lt; lia).
  rewrite E1, E2, E3. reflexivity.
Qed.

(** The scenario of three eligible files of 400000 characters: the first
    two are merged, the third is left out. *)
Example folder_three_files_scenario :
  processedCount (processFolder threeFilesFolder) = 2%nat
  /\ totalValidFileCount (processFolder threeFilesFolder) = 3%nat
  /\ map fr_name (finalProcessedFiles threeFilesFolder) = [lit "d/a.txt"; lit "d/b.txt"].
Proof.
  assert (E : finalProcessedFiles threeFilesFolder
              = [ {| fr_name := lit "d/a.txt"; fr_content := lettersA 400000 |};
                  {| fr_name := lit "d/b.txt"; fr_content := lettersA 400000 |} ]).
  { unfold finalProcessedFiles, threeFilesFolder.
    generalize (@strlen_lettersA 400000).
    generalize (@hasContent_lettersA [] 400000).
    generalize (lettersA 400000). intros t Hc Hlen.
    change (allResults (validFiles [ textFile "a.txt" 400000 t;
                                     textFile "b.txt" 400000 t;
                                     textFile "c.txt" 400000 t ]))
      with [ {| fr_name := lit "d/a.txt"; fr_content := t |};
             {| fr_name := lit "d/b.txt"; fr_content := t |};
             {| fr_name := lit "d/c.txt"; fr_content := t |} ].
    apply budgetLoop_two_of_three.
    - apply Hc. lia.
    - rewrite Hlen by lia. unfold MAX_CONTEXT_CHARS. lia. }
  unfold processFolder. cbn [processedCount totalValidFileCount].
  rewrite E. repeat split.
Qed.

(** C4: a folder upload merges at most as many files as are eligible
    (extension in [ALLOWED_EXTENSIONS] and size above zero, counted by
    [totalValidFileCount]), and the texts it merges have at most
    [MAX_CONTEXT_CHARS] characters in total. *)
Theorem C4_folder_counts_and_budget :
  forall (files : list File),
    (processedCount (processFolder files)
     <= totalValidFileCount (processFolder files))%nat
    /\ totalValidFileCount (processFolder files)
       = List.length
           (filter (fun f => includes ALLOWED_EXTENSIONS (extensionOf f)
                             && (0 <? file_size f)%N) files)
    /\ processedCount (processFolder files) = List.length (finalProcessedFiles files)
    /\ (totalLength (finalProcessedFiles files) <= MAX_CONTEXT_CHARS)%Z.
Proof.
  intros files.
  assert (H0 : (totalLength [] <= MAX_CONTEXT_CHARS)%Z)
    by (unfold MAX_CONTEXT_CHARS; simpl; lia).
  destruct (@budgetLoop_prefix (allResults (validFiles files)) [] H0)
    as (incl & excl & Hf & Hl & Hs & Hk).
  simpl in Hl, Hs. unfold processFolder, finalProcessedFiles. simpl.
  rewrite Hl. repeat split; auto.
  pose proof (filter_length_le hasContent (allResults (validFiles files))) as H1.
  pose proof (allResults_length (validFiles files)) as H2.
  rewrite Hf, length_app in H1. lia.
Qed.

(** ** The conversation state *)

Section AppFacts.

Variable API_KEY : option jsstring.

Lemma getAiInstance_no_key :
  Gemini.keySet API_KEY = false -> Gemini.getAiInstance API_KEY = None.
Proof. intros H. unfold Gemini.getAiInstance. now rewrite H. Qed.

Lemma getAiInstance_key :
  Gemini.keySet API_KEY = true -> Gemini.getAiInstance API_KEY = API_KEY.
Proof. intros H. unfold Gemini.getAiInstance. now rewrite H. Qed.

(** Whatever settles, the suggestion fetch ends with the busy flag down
    and leaves [isLoading] alone. *)
Lemma fetch_settled_flags (now : N) (s : Gemini.Settled) (st : AppState) :
  isLoading (fetchAndSetInitialSuggestions_settled now s st) = isLoading st
  /\ isFetchingSuggestions (fetchAndSetInitialSuggestions_settled now s st) = false.
Proof.
  unfold fetchAndSetInitialSuggestions_settled.
  destruct s as [response|message]; [|split; reflexivity].
  destruct (Gemini.text response) as [[|c cs]|]; try (split; reflexivity).
  destruct (parseSuggestions (c :: cs)); split; reflexivity.
Qed.

Lemma send_settled_flags (sentAt : N) (s : Gemini.Settled) (st : AppState) :
  isLoading (handleSendMessage_settled sentAt s st) = false
  /\ isFetchingSuggestions (handleSendMessage_settled sentAt s st)
     = isFetchingSuggestions st.
Proof. split; reflexivity. Qed.

(** Without a credential no event raises a busy flag. *)
Lemma step_flags_no_key (now : N) (e : Event) (st : AppState) :
  Gemini.keySet API_KEY = false ->
  isLoading st = false -> isFetchingSuggestions st = false ->
  isLoading (fst (step API_KEY now e st)) = false
  /\ isFetchingSuggestions (fst (step API_KEY now e st)) = false.
Proof.
  intros Hkey HL HF. destruct e; unfold step.
  - split; [exact HL | exact HF].
  - split; [exact HL | exact HF].
  - unfold onAdd. destruct (handleAddGroup now name st) as [st'|] eqn:E;
      [|split; assumption].
    unfold handleAddGroup in E.
    destruct (negb (truthy (trim name)) || _); [discriminate|].
    injection E as <-. split; [exact HL | exact HF].
  - unfold onRemoveGroup, handleRemoveGroup.
    destruct (List.length (urlGroups st) <=? 1)%nat; [split; assumption|].
    destruct confirmed; [|split; assumption].
    destruct (eqb (activeUrlGroupId st) groupId).
    + destruct (filter _ (urlGroups st)); split; assumption.
    + split; assumption.
  - unfold onSetGroupId. destruct (eqb id (activeUrlGroupId st)); split; assumption.
  - unfold handleFileUpload.
    destruct (negb (includes ALLOWED_EXTENSIONS (extensionOf file))); split; assumption.
  - unfold handleFileUpload_settled.
    destruct (readByExtension (extensionOf file) file) as [t|]; [|split; assumption].
    destruct (truncateContent t); split; assumption.
  - split; assumption.
  - unfold handleFolderUpload_settled.
    destruct (Nat.eqb (processedCount (processFolder files)) 0); split; assumption.
  - split; assumption.
  - unfold handleSendMessage. rewrite Hkey.
    destruct (negb (truthy (trim query)) || isLoading st || isFetchingSuggestions st);
      split; assumption.
  - destruct (send_settled_flags sentAt
                (Gemini.generateContentWithUrlContext_settle answer) st) as [H1 H2].
    simpl fst. rewrite H1, H2. split; [reflexivity | exact HF].
  - unfold suggestionsEffect. rewrite Hkey, andb_false_r. split; assumption.
  - destruct (fetch_settled_flags now (Gemini.getInitialSuggestions_settle answer) st)
      as [H1 H2].
    simpl fst. rewrite H1, H2. split; [exact HL | reflexivity].
  - split; assumption.
  - split; assumption.
Qed.

(** Without a credential both busy flags are down in every state of a run. *)
Lemma reachable_flags_no_key (st : AppState) :
  Gemini.keySet API_KEY = false -> reachable API_KEY st ->
  isLoading st = false /\ isFetchingSuggestions st = false.
Proof.
  intros Hkey Hr. induction Hr as [now|now e st Hr [HL HF]].
  - split; reflexivity.
  - now apply step_flags_no_key.
Qed.

(** Without a credential no event sends a call. *)
Lemma step_no_key_no_call (now : N) (e : Event) (st : AppState) :
  Gemini.keySet API_KEY = false -> snd (step API_KEY now e st) = [].
Proof.
  intros Hkey. destruct e; try reflexivity; unfold step.
  - unfold handleSendMessage. rewrite Hkey.
    now destruct (negb (truthy (trim query)) || isLoading st || isFetchingSuggestions st).
  - unfold suggestionsEffect. now rewrite Hkey, andb_false_r.
Qed.

End AppFacts.

(** ** The code fence *)

Section FenceFacts.

Import Regex.












Lemma isWhiteSpace_not_word (x : N) : isWhiteSpace x = true -> isWord x = false.
Proof.
  intros H. destruct (isWord x) eqn:E; [exfalso|reflexivity].
  unfold isWhiteSpace in H. unfold isWord in E.
  repeat (rewrite orb_true_iff in H || rewrite andb_true_iff in H
          || rewrite N.leb_le in H || rewrite N.eqb_eq in H).
  repeat (rewrite orb_true_iff in E || rewrite andb_true_iff in E
          || rewrite N.leb_le in E || rewrite N.eqb_eq in E).
  lia.
Qed.














End FenceFacts.

(** ** Suggestions *)




Section SuggestionFacts.

Variable API_KEY : option jsstring.



End SuggestionFacts.




(** ** Outbound calls *)

(** C6: when no credential is configured, sending a non-blank query in any
    state of a run sends no call to the backend and appends one message to
    the log and changes nothing else: the message has the sender SYSTEM,
    the id error-apikey- followed by the clock, and the text that reports
    the missing key.  Nor does any other event send a call. *)
Theorem C6_no_credential_no_call :
  forall (API_KEY : option jsstring) (now : N) (query : jsstring) (st : AppState),
    Gemini.keySet API_KEY = false ->
    reachable API_KEY st ->
    truthy (trim query) = true ->
    handleSendMessage API_KEY now query st
    = ({| urlGroups := urlGroups st; activeUrlGroupId := activeUrlGroupId st;
          isSidebarOpen := isSidebarOpen st;
          isAddGroupModalOpen := isAddGroupModalOpen st;
          chatMessages :=
            chatMessages st
            ++ [ {| msg_id := lit "error-apikey-" ++ ofNat now;
                    msg_text :=
                      lit "錯誤：API 金鑰 (process.env.API_KEY) 尚未設定。請先設定才能傳送訊息。";
                    sender := SYSTEM; timestamp := now; msg_isLoading := None;
                    urlContext := None |} ];
          isLoading := isLoading st;
          isFetchingSuggestions := isFetchingSuggestions st;
          initialQuerySuggestions := initialQuerySuggestions st;
          localContext := localContext st;
          isProcessingFiles := isProcessingFiles st |},
       [])
    /\ (forall now' e st', snd (step API_KEY now' e st') = [])
    /\ (forall prompt urls fileContent,
          Gemini.generateContentWithUrlContext API_KEY prompt urls fileContent
          = Gemini.Threw Gemini.keyMissingMessage).
Proof.
  intros API_KEY now query st Hkey Hr Hq.
  destruct (reachable_flags_no_key Hkey Hr) as [HL HF].
  split; [|split].
  - transitivity
      (appendMessage st
         (systemMessage "error-apikey-" now
            (lit "錯誤：API 金鑰 (process.env.API_KEY) 尚未設定。請先設定才能傳送訊息。")),
       @nil Gemini.Request);
      [|reflexivity].
    unfold handleSendMessage. rewrite Hq, HL, HF, Hkey. reflexivity.
  - intros now' e st'. now apply step_no_key_no_call.
  - intros prompt urls fileContent. unfold Gemini.generateContentWithUrlContext.
    now rewrite (getAiInstance_no_key _ Hkey).
Qed.

(** C6 for the freshly mounted application without a key and the query hi:
    nothing is sent, and the log grows by one message of the sender SYSTEM
    with the text about the missing key. *)
Lemma C6_no_credential_no_call_witness :
  snd (handleSendMessage None 7 (lit "hi") (mounted None)) = []
  /\ exists m,
       chatMessages (fst (handleSendMessage None 7 (lit "hi") (mounted None)))
       = chatMessages (mounted None) ++ [m]
       /\ sender m = SYSTEM
       /\ msg_id m = lit "error-apikey-7"
       /\ msg_text m
          = lit "錯誤：API 金鑰 (process.env.API_KEY) 尚未設定。請先設定才能傳送訊息。"
       /\ localContext (fst (handleSendMessage None 7 (lit "hi") (mounted None)))
          = localContext (mounted None)
       /\ isLoading (fst (handleSendMessage None 7 (lit "hi") (mounted None))) = false.
Proof.
  rewrite (proj1 (@C6_no_credential_no_call None 7 (lit "hi") (mounted None)
                    eq_refl (reachable_mount None 0) eq_refl)).
  split; [reflexivity|].
  eexists. split; [reflexivity|]. repeat split.
Defined.

(** C7: no call carries both a grounding-tool URL list and the
    JSON-response-mode flag.  [generateContentWithUrlContext] sends the
    [urlContext] tool exactly when it is given URLs and never sets
    [responseMimeType]; [getInitialSuggestions] sets [responseMimeType] to
    application/json and sends no [tools]; and every call an event sends
    is one of these. *)
Theorem C7_grounding_excludes_json_mode :
  forall (API_KEY : option jsstring),
    (forall prompt urls fileContent req,
        Gemini.generateContentWithUrlContext API_KEY prompt urls fileContent
        = Gemini.Awaiting req ->
        Gemini.tools (Gemini.config req)
        = Some (match urls with [] => [] | _ :: _ => [Gemini.UrlContext urls] end)
        /\ Gemini.responseMimeType (Gemini.config req) = None)
    /\ (forall urls req,
          Gemini.getInitialSuggestions API_KEY urls = Gemini.Awaiting req ->
          Gemini.tools (Gemini.config req) = None
          /\ Gemini.responseMimeType (Gemini.config req) = Some (lit "application/json"))
    /\ (forall now e st req,
          In req (snd (step API_KEY now e st)) ->
          hasUrlContext req && hasResponseMimeType req = false).
Proof.
  intros API_KEY.
  assert (G : forall prompt urls fileContent req,
             Gemini.generateContentWithUrlContext API_KEY prompt urls fileContent
             = Gemini.Awaiting req ->
             Gemini.tools (Gemini.config req)
             = Some (match urls with [] => [] | _ :: _ => [Gemini.UrlContext urls] end)
             /\ Gemini.responseMimeType (Gemini.config req) = None).
  { intros prompt urls fileContent req.
    unfold Gemini.generateContentWithUrlContext.
    destruct (Gemini.getAiInstance API_KEY); [|discriminate].
    intros H. injection H as <-. split; reflexivity. }
  assert (S : forall urls req,
             Gemini.getInitialSuggestions API_KEY urls = Gemini.Awaiting req ->
             Gemini.tools (Gemini.config req) = None
             /\ Gemini.responseMimeType (Gemini.config req)
                = Some (lit "application/json")).
  { intros urls req. unfold Gemini.getInitialSuggestions.
    destruct urls as [|u us]; [discriminate|].
    destruct (Gemini.getAiInstance API_KEY); [|discriminate].
    intros H. injection H as <-. split; reflexivity. }
  split; [exact G|]. split; [exact S|].
  intros now e st req Hin.
  destruct e; try contradiction; unfold step in Hin.
  - unfold handleSendMessage in Hin.
    destruct (negb (truthy (trim query)) || isLoading st || isFetchingSuggestions st);
      [contradiction|].
    destruct (negb (Gemini.keySet API_KEY)); [contradiction|].
    destruct (Gemini.generateContentWithUrlContext API_KEY query
                (currentUrlsForChat st) (option_map content (localContext st)))
      as [r|m|r] eqn:E; try contradiction.
    destruct Hin as [<-|[]]. destruct (G _ _ _ _ E) as [_ Hm].
    unfold hasResponseMimeType. rewrite Hm. apply andb_false_r.
  - unfold suggestionsEffect, fetchAndSetInitialSuggestions in Hin.
    destruct ((0 <? List.length (currentUrlsForChat st))%nat && Gemini.keySet API_KEY);
      [|contradiction].
    destruct (currentUrlsForChat st) as [|u us]; [contradiction|].
    destruct (Gemini.getInitialSuggestions API_KEY (u :: us)) as [r|m|r] eqn:E;
      try contradiction.
    destruct Hin as [<-|[]]. destruct (S _ _ E) as [Ht _].
    unfold hasUrlContext. rewrite Ht. reflexivity.
Qed.

(** C7 at the mounted application with a key: the call sent for the query
    hi carries the URL list and no response type; the call sent by the
    second effect carries the response type and no tools. *)
Lemma C7_grounding_excludes_json_mode_witness :
  (Gemini.tools (Gemini.config sampleAnswerRequest)
   = Some [Gemini.UrlContext GEMINI_DOCS_URLS]
   /\ Gemini.responseMimeType (Gemini.config sampleAnswerRequest) = None)
  /\ (Gemini.tools (Gemini.config sampleSuggestionsRequest) = None
      /\ Gemini.responseMimeType (Gemini.config sampleSuggestionsRequest)
         = Some (lit "application/json"))
  /\ hasUrlContext sampleAnswerRequest && hasResponseMimeType sampleAnswerRequest
     = false
  /\ hasUrlContext sampleSuggestionsRequest
     && hasResponseMimeType sampleSuggestionsRequest = false.
Proof.
  pose proof (C7_grounding_excludes_json_mode sampleKey) as (G & S & E).
  split; [|split; [|split]].
  - apply (G (lit "hi") GEMINI_DOCS_URLS None sampleAnswerRequest).
    vm_compute. reflexivity.
  - apply (S GEMINI_DOCS_URLS sampleSuggestionsRequest).
    vm_compute. reflexivity.
  - apply (E 7%N (OnSendMessage (lit "hi")) (mounted sampleKey)).
    left. vm_compute. reflexivity.
  - apply (E 7%N SuggestionsEffect (mounted sampleKey)).
    left. vm_compute. reflexivity.
Defined.

(** ** Groups and URLs *)

Section GroupFacts.

Variable API_KEY : option jsstring.

(** What the first effect leaves behind. *)
Lemma welcomeEffect_resets (now : N) (st : AppState) :
  activeUrlGroupId (welcomeEffect API_KEY now st) = activeUrlGroupId st
  /\ urlGroups (welcomeEffect API_KEY now st) = urlGroups st
  /\ localContext (welcomeEffect API_KEY now st) = None
  /\ exists m, chatMessages (welcomeEffect API_KEY now st) = [m]
               /\ isWelcomeFor (activeUrlGroupId st) now m.
Proof.
  repeat split. eexists. split; [reflexivity|]. repeat split.
Qed.

(** An event either leaves the active group alone or ends with a run of
    the first effect. *)
Lemma step_active_or_welcome (now : N) (e : Event) (st : AppState) :
  activeUrlGroupId (fst (step API_KEY now e st)) = activeUrlGroupId st
  \/ exists st0, fst (step API_KEY now e st) = welcomeEffect API_KEY now st0.
Proof.
  destruct e; unfold step; simpl fst.
  - right. eexists. reflexivity.
  - right. eexists. reflexivity.
  - unfold onAdd. destruct (handleAddGroup now name st) as [st'|];
      [right; eexists; reflexivity | left; reflexivity].
  - unfold onRemoveGroup.
    destruct (handleRemoveGroup groupId confirmed st) as [|st'|st'];
      [left; reflexivity | right; eexists; reflexivity | right; eexists; reflexivity].
  - unfold onSetGroupId. destruct (eqb id (activeUrlGroupId st));
      [left; reflexivity | right; eexists; reflexivity].
  - left. unfold handleFileUpload.
    now destruct (negb (includes ALLOWED_EXTENSIONS (extensionOf file))).
  - left. unfold handleFileUpload_settled.
    destruct (readByExtension (extensionOf file) file) as [t|]; [|reflexivity].
    now destruct (truncateContent t).
  - left. reflexivity.
  - left. unfold handleFolderUpload_settled.
    now destruct (Nat.eqb (processedCount (processFolder files)) 0).
  - left. reflexivity.
  - left. unfold handleSendMessage.
    destruct (negb (truthy (trim query)) || isLoading st || isFetchingSuggestions st);
      [reflexivity|].
    destruct (negb (Gemini.keySet API_KEY)); [reflexivity|].
    now destruct (Gemini.generateContentWithUrlContext API_KEY query
                    (currentUrlsForChat st) (option_map content (localContext st))).
  - left. reflexivity.
  - left. unfold suggestionsEffect, fetchAndSetInitialSuggestions.
    destruct ((0 <? List.length (currentUrlsForChat st))%nat && Gemini.keySet API_KEY);
      [|reflexivity].
    destruct (currentUrlsForChat st) as [|u us]; [reflexivity|].
    destruct (Gemini.getInitialSuggestions API_KEY (u :: us)) as [r|m|r];
      try reflexivity.
    + unfold fetchAndSetInitialSuggestions_settled.
      destruct (Gemini.text r) as [[|c cs]|]; try reflexivity.
      now destruct (parseSuggestions (c :: cs)).
  - left. unfold fetchAndSetInitialSuggestions_settled.
    destruct (Gemini.getInitialSuggestions_settle answer) as [r|m]; [|reflexivity].
    destruct (Gemini.text r) as [[|c cs]|]; try reflexivity.
    now destruct (parseSuggestions (c :: cs)).
  - left. reflexivity.
  - left. reflexivity.
Qed.

End GroupFacts.

(** C8: after every switch of the active URL group the message log is
    exactly one system welcome message, made at that moment for the new
    group, and no local context is attached.  This holds for the group
    selector and for every other event that changes the active group
    (adding a group, removing the active one). *)
Theorem C8_group_switch_resets :
  forall (API_KEY : option jsstring) (now : N) (st : AppState),
    (forall id,
        id <> activeUrlGroupId st ->
        activeUrlGroupId (onSetGroupId API_KEY now id st) = id
        /\ localContext (onSetGroupId API_KEY now id st) = None
        /\ exists m, chatMessages (onSetGroupId API_KEY now id st) = [m]
                     /\ isWelcomeFor id now m)
    /\ (forall e,
          activeUrlGroupId (fst (step API_KEY now e st)) <> activeUrlGroupId st ->
          localContext (fst (step API_KEY now e st)) = None
          /\ exists m,
               chatMessages (fst (step API_KEY now e st)) = [m]
               /\ isWelcomeFor (activeUrlGroupId (fst (step API_KEY now e st))) now m).
Proof.
  intros API_KEY now st. split.
  - intros id Hid. unfold onSetGroupId.
    apply eqb_neq in Hid. rewrite Hid.
    destruct (welcomeEffect_resets API_KEY now (setActiveUrlGroupId st id))
      as (Ha & _ & Hc & m & Hm & Hw).
    repeat split; auto. exists m. split; auto.
  - intros e Hne.
    destruct (step_active_or_welcome API_KEY now e st) as [Heq|[st0 Hst0]];
      [contradiction|].
    rewrite Hst0.
    destruct (welcomeEffect_resets API_KEY now st0) as (Ha & _ & Hc & m & Hm & Hw).
    split; auto. exists m. rewrite Ha. split; auto.
Qed.

(** C8 at the mounted application with a file attached: selecting the
    second group leaves one welcome message and no context. *)
Lemma C8_group_switch_resets_witness :
  activeUrlGroupId
    (onSetGroupId None 9 (lit "model-capabilities") (withAttachedFile None))
  = lit "model-capabilities"
  /\ localContext
       (onSetGroupId None 9 (lit "model-capabilities") (withAttachedFile None))
     = None
  /\ exists m,
       chatMessages
         (onSetGroupId None 9 (lit "model-capabilities") (withAttachedFile None))
       = [m]
       /\ isWelcomeFor (lit "model-capabilities") 9 m.
Proof.
  apply (proj1 (C8_group_switch_resets None 9 (withAttachedFile None))).
  vm_compute. discriminate.
Defined.

(** With pairwise distinct ids and at least two groups, some group is
    left after a removal. *)
Lemma remaining_groups_nonempty (groupId : jsstring) (groups : list URLGroup) :
  (1 < List.length groups)%nat ->
  NoDup (map group_id groups) ->
  exists g rest,
    filter (fun g => negb (eqb (group_id g) groupId)) groups = g :: rest.
Proof.
  intros Hlen Hnd.
  destruct groups as [|a [|b more]]; simpl in Hlen; try lia.
  simpl. destruct (eqb (group_id a) groupId) eqn:Ea; simpl.
  - destruct (eqb (group_id b) groupId) eqn:Eb; simpl.
    + apply eqb_eq in Ea, Eb. simpl in Hnd. inversion Hnd as [|x l Hnot _]; subst.
      exfalso. apply Hnot. left. congruence.
    + eexists. eexists. reflexivity.
  - eexists. eexists. reflexivity.
Qed.

(** C9: removing a group is refused, and neither the groups nor the active
    id change, while there is at most one group; once confirmed, removing
    the active group makes the first of the remaining groups active (one
    exists whenever the ids of the groups are pairwise distinct). *)
Theorem C9_remove_group :
  forall (API_KEY : option jsstring) (now : N) (groupId : jsstring) (st : AppState),
    (forall confirmed,
        (List.length (urlGroups st) <= 1)%nat ->
        handleRemoveGroup groupId confirmed st = Refused
        /\ onRemoveGroup API_KEY now groupId confirmed st = st)
    /\ (forall g rest,
          (1 < List.length (urlGroups st))%nat ->
          activeUrlGroupId st = groupId ->
          filter (fun g => negb (eqb (group_id g) groupId)) (urlGroups st) = g :: rest ->
          handleRemoveGroup groupId true st
          = Removed (setActiveUrlGroupId (setUrlGroups st (g :: rest)) (group_id g))
          /\ urlGroups (onRemoveGroup API_KEY now groupId true st) = g :: rest
          /\ activeUrlGroupId (onRemoveGroup API_KEY now groupId true st) = group_id g)
    /\ ((1 < List.length (urlGroups st))%nat ->
        NoDup (map group_id (urlGroups st)) ->
        exists g rest,
          filter (fun g => negb (eqb (group_id g) groupId)) (urlGroups st) = g :: rest).
Proof.
  intros API_KEY now groupId st. split; [|split].
  - intros confirmed Hlen.
    assert (E : handleRemoveGroup groupId confirmed st = Refused).
    { unfold handleRemoveGroup. apply Nat.leb_le in Hlen. now rewrite Hlen. }
    split; [exact E|]. unfold onRemoveGroup. now rewrite E.
  - intros g rest Hlen Hact Hf.
    assert (E : handleRemoveGroup groupId true st
                = Removed (setActiveUrlGroupId (setUrlGroups st (g :: rest))
                                               (group_id g))).
    { unfold handleRemoveGroup.
      assert (Hl : (List.length (urlGroups st) <=? 1)%nat = false)
        by (apply Nat.leb_gt; lia).
      rewrite Hl, Hf, Hact, eqb_refl. reflexivity. }
    split; [exact E|]. unfold onRemoveGroup. rewrite E. split; reflexivity.
  - apply remaining_groups_nonempty.
Qed.

(** C9 at the mounted application: removing the active first group makes
    the second one active; removing the group that is then alone is
    refused. *)
Lemma C9_remove_group_witness :
  activeUrlGroupId (onRemoveGroup None 1 (lit "gemini-overview") true (mounted None))
  = lit "model-capabilities"
  /\ onRemoveGroup None 2 (lit "model-capabilities") true
       (onRemoveGroup None 1 (lit "gemini-overview") true (mounted None))
     = onRemoveGroup None 1 (lit "gemini-overview") true (mounted None).
Proof.
  split.
  - destruct (proj1 (proj2 (C9_remove_group None 1 (lit "gemini-overview")
                              (mounted None)))
                {| group_id := lit "model-capabilities"; group_name := lit "模型功能";
                   urls := MODEL_CAPABILITIES_URLS |} [])
      as (_ & _ & H).
    + vm_compute. lia.
    + reflexivity.
    + reflexivity.
    + rewrite H. reflexivity.
  - apply (proj1 (C9_remove_group None 2 (lit "model-capabilities")
                    (onRemoveGroup None 1 (lit "gemini-overview") true (mounted None)))
             true).
    vm_compute. lia.
Defined.

(** ** URLs of the active group *)

(** C10 does not hold as first stated: with a file attached and two
    messages in the log, adding a URL (or removing one) is followed by the
    first effect, which depends on [urlGroups]; the log is then a single
    welcome message and the local context is gone. *)
Lemma C10_url_change_resets_counterexample :
  reachable None (withAttachedFile None)
  /\ localContext (withAttachedFile None)
  = Some {| ctx_type := CtxFile; ctx_name := lit "notes.txt";
            content := lit "hello"; count := 1 |}
  /\ List.length (chatMessages (withAttachedFile None)) = 2%nat
  /\ localContext (onAddUrl None 5 (lit "https://example.com/") (withAttachedFile None))
     = None
  /\ List.length
       (chatMessages
          (onAddUrl None 5 (lit "https://example.com/") (withAttachedFile None)))
     = 1%nat
  /\ chatMessages (onAddUrl None 5 (lit "https://example.com/") (withAttachedFile None))
     <> chatMessages (withAttachedFile None)
  /\ localContext
       (onRemoveUrl None 5 (lit "https://example.com/") (withAttachedFile None))
     <> localContext (withAttachedFile None)
  /\ chatMessages
       (onRemoveUrl None 5 (lit "https://example.com/") (withAttachedFile None))
     <> chatMessages (withAttachedFile None).
Proof.
  split.
  { change (withAttachedFile None)
      with (fst (step None 2 (FileSettled (textFile "notes.txt" 5 (lit "hello")))
                   (fst (step None 1
                           (OnFileUpload (textFile "notes.txt" 5 (lit "hello")))
                           (mounted None))))).
    apply reachable_step, reachable_step, reachable_mount. }
  split; [reflexivity|]. split; [reflexivity|]. split; [reflexivity|].
  split; [reflexivity|].
  split; [|split]; intros H.
  - apply (f_equal (@List.length ChatMessage)) in H. vm_compute in H. discriminate H.
  - vm_compute in H. discriminate H.
  - apply (f_equal (@List.length ChatMessage)) in H. vm_compute in H. discriminate H.
Qed.

(** C10 (as the code has it): the state update of [handleAddUrl] and of
    [handleRemoveUrl] changes nothing but [urlGroups]: every other part of
    the state is as before.  Within [urlGroups] no group is added or
    removed, a group whose id is not the active id stays as it is, and a
    group whose id is the active id keeps its id and name; adding leaves
    its url list as it is when it already holds [MAX_URLS] URLs or holds
    the URL, and appends the URL otherwise; removing drops every
    occurrence of the URL.  The render that follows runs the first effect,
    which replaces the log by one welcome message and clears the local
    context, and touches neither the groups nor the active id. *)
Theorem C10_url_handlers_frame :
  forall (url : jsstring) (st : AppState),
    (handleAddUrl url st
     = {| urlGroups := urlGroups (handleAddUrl url st);
          activeUrlGroupId := activeUrlGroupId st;
          isSidebarOpen := isSidebarOpen st;
          isAddGroupModalOpen := isAddGroupModalOpen st;
          chatMessages := chatMessages st;
          isLoading := isLoading st;
          isFetchingSuggestions := isFetchingSuggestions st;
          initialQuerySuggestions := initialQuerySuggestions st;
          localContext := localContext st;
          isProcessingFiles := isProcessingFiles st |}
     /\ handleRemoveUrl url st
        = {| urlGroups := urlGroups (handleRemoveUrl url st);
             activeUrlGroupId := activeUrlGroupId st;
             isSidebarOpen := isSidebarOpen st;
             isAddGroupModalOpen := isAddGroupModalOpen st;
             chatMessages := chatMessages st;
             isLoading := isLoading st;
             isFetchingSuggestions := isFetchingSuggestions st;
             initialQuerySuggestions := initialQuerySuggestions st;
             localContext := localContext st;
             isProcessingFiles := isProcessingFiles st |})
    /\ (List.length (urlGroups (handleAddUrl url st)) = List.length (urlGroups st)
        /\ List.length (urlGroups (handleRemoveUrl url st)) = List.length (urlGroups st))
    /\ (forall i g,
          nth_error (urlGroups st) i = Some g ->
          eqb (group_id g) (activeUrlGroupId st) = false ->
          nth_error (urlGroups (handleAddUrl url st)) i = Some g
          /\ nth_error (urlGroups (handleRemoveUrl url st)) i = Some g)
    /\ (forall i g,
          nth_error (urlGroups st) i = Some g ->
          eqb (group_id g) (activeUrlGroupId st) = true ->
          ((MAX_URLS <= List.length (urls g))%nat \/ includes (urls g) url = true ->
           nth_error (urlGroups (handleAddUrl url st)) i = Some g)
          /\ ((List.length (urls g) < MAX_URLS)%nat ->
              includes (urls g) url = false ->
              nth_error (urlGroups (handleAddUrl url st)) i
              = Some {| group_id := group_id g; group_name := group_name g;
                        urls := urls g ++ [url] |})
          /\ nth_error (urlGroups (handleRemoveUrl url st)) i
             = Some {| group_id := group_id g; group_name := group_name g;
                       urls := filter (fun u => negb (eqb u url)) (urls g) |})
    /\ (forall API_KEY now,
          onAddUrl API_KEY now url st = welcomeEffect API_KEY now (handleAddUrl url st)
          /\ onRemoveUrl API_KEY now url st
             = welcomeEffect API_KEY now (handleRemoveUrl url st)
          /\ localContext (onAddUrl API_KEY now url st) = None
          /\ localContext (onRemoveUrl API_KEY now url st) = None
          /\ (exists m, chatMessages (onAddUrl API_KEY now url st) = [m]
                        /\ isWelcomeFor (activeUrlGroupId st) now m)
          /\ (exists m, chatMessages (onRemoveUrl API_KEY now url st) = [m]
                        /\ isWelcomeFor (activeUrlGroupId st) now m)
          /\ urlGroups (onAddUrl API_KEY now url st) = urlGroups (handleAddUrl url st)
          /\ urlGroups (onRemoveUrl API_KEY now url st)
             = urlGroups (handleRemoveUrl url st)
          /\ activeUrlGroupId (onAddUrl API_KEY now url st) = activeUrlGroupId st
          /\ activeUrlGroupId (onRemoveUrl API_KEY now url st) = activeUrlGroupId st).
Proof.
  intros url st. split; [split; reflexivity|].
  split; [split; apply length_map|]. split; [|split].
  - intros i g Hi Hg. unfold handleAddUrl, handleRemoveUrl.
    cbv beta iota delta [urlGroups setUrlGroups]. fold (urlGroups st).
    rewrite !nth_error_map, Hi. simpl. rewrite Hg. split; reflexivity.
  - intros i g Hi Hg. unfold handleAddUrl, handleRemoveUrl.
    cbv beta iota delta [urlGroups setUrlGroups]. fold (urlGroups st).
    rewrite !nth_error_map, Hi. simpl option_map. rewrite Hg.
    split; [|split].
    + intros [Hfull|Hdup].
      * assert (E : (List.length (urls g) <? MAX_URLS)%nat = false)
          by (apply Nat.ltb_ge; exact Hfull).
        now rewrite E.
      * rewrite Hdup, andb_false_r. reflexivity.
    + intros Hroom Hnew. apply Nat.ltb_lt in Hroom. now rewrite Hroom, Hnew.
    + reflexivity.
  - intros API_KEY now. split; [reflexivity|]. split; [reflexivity|].
    split; [reflexivity|]. split; [reflexivity|].
    split; [eexists; (split; [reflexivity|]); repeat split|].
    split; [eexists; (split; [reflexivity|]); repeat split|].
    repeat split.
Qed.

(** C10 at the mounted application: adding a URL the active group already
    holds leaves the group as it is; adding a new one appends it; the
    second group is untouched, and there are still two groups. *)
Lemma C10_url_handlers_frame_witness :
  nth_error (urlGroups (handleAddUrl (lit "https://ai.google.dev/gemini-api/docs")
                          (mounted None))) 0
  = nth_error (urlGroups (mounted None)) 0
  /\ nth_error (urlGroups (handleAddUrl (lit "https://example.com/") (mounted None))) 0
     = Some {| group_id := lit "gemini-overview"; group_name := lit "Gemini 文件總覽";
               urls := GEMINI_DOCS_URLS ++ [lit "https://example.com/"] |}
  /\ nth_error (urlGroups (handleAddUrl (lit "https://example.com/") (mounted None))) 1
     = nth_error (urlGroups (mounted None)) 1
  /\ List.length (urlGroups (handleAddUrl (lit "https://example.com/") (mounted None)))
     = 2%nat.
Proof.
  split; [|split; [|split]].
  - destruct (proj1 (proj2 (proj2 (proj2 (C10_url_handlers_frame
                                            (lit "https://ai.google.dev/gemini-api/docs")
                                            (mounted None)))))
                0%nat
                {| group_id := lit "gemini-overview"; group_name := lit "Gemini 文件總覽";
                   urls := GEMINI_DOCS_URLS |} eq_refl)
      as (H & _).
    + vm_compute. reflexivity.
    + rewrite H; [reflexivity|]. right. vm_compute. reflexivity.
  - destruct (proj1 (proj2 (proj2 (proj2 (C10_url_handlers_frame
                                            (lit "https://example.com/")
                                            (mounted None)))))
                0%nat
                {| group_id := lit "gemini-overview"; group_name := lit "Gemini 文件總覽";
                   urls := GEMINI_DOCS_URLS |} eq_refl)
      as (_ & H & _).
    + vm_compute. reflexivity.
    + apply H; vm_compute; [lia | reflexivity].
  - destruct (proj1 (proj2 (proj2 (C10_url_handlers_frame
                                     (lit "https://example.com/") (mounted None))))
                1%nat
                {| group_id := lit "model-capabilities"; group_name := lit "模型功能";
                   urls := MODEL_CAPABILITIES_URLS |} eq_refl)
      as (H & _).
    + vm_compute. reflexivity.
    + rewrite H. reflexivity.
  - rewrite (proj1 (proj1 (proj2 (C10_url_handlers_frame
                                    (lit "https://example.com/") (mounted None))))).
    reflexivity.
Defined.

(** * Further properties of the code *)

(** ** services/fileProcessor *)

Lemma allResults_In (valid : list File) (r : FileResult) :
  In r (allResults valid) ->
  exists f, In f valid
            /\ readByExtension (extensionOf f) f = Some (fr_content r)
            /\ fr_name r = webkitRelativePath f.
Proof.
  induction valid as [|f valid IH]; simpl; [contradiction|].
  destruct (readByExtension (extensionOf f) f) as [t|] eqn:E.
  - intros [<-|Hin].
    + exists f. simpl. auto.
    + destruct (IH Hin) as (g & Hg & H). exists g. auto.
  - intros Hin. destruct (IH Hin) as (g & Hg & H). exists g. auto.
Qed.

Lemma allResults_app (a b : list File) :
  allResults (a ++ b) = allResults a ++ allResults b.
Proof.
  induction a as [|f a IH]; simpl; [reflexivity|].
  destruct (readByExtension (extensionOf f) f); simpl; now rewrite IH.
Qed.

Lemma budgetLoop_skip (r : FileResult) (ys : list FileResult) :
  hasContent r = false ->
  forall xs total acc,
    budgetLoop total acc (xs ++ r :: ys) = budgetLoop total acc (xs ++ ys).
Proof.
  intros Hr xs. induction xs as [|x xs IH]; intros total acc; simpl.
  - now rewrite Hr.
  - destruct (hasContent x); [|apply IH].
    destruct (total + strlen (fr_content x) >? MAX_CONTEXT_CHARS)%Z;
      [reflexivity | apply IH].
Qed.

Lemma finalProcessedFiles_prefix (files : list File) :
  exists excluded,
    filter hasContent (allResults (validFiles files))
    = finalProcessedFiles files ++ excluded
    /\ (totalLength (finalProcessedFiles files) <= MAX_CONTEXT_CHARS)%Z
    /\ match excluded with
       | [] => True
       | k :: _ =>
           (totalLength (finalProcessedFiles files) + strlen (fr_content k)
            > MAX_CONTEXT_CHARS)%Z
       end.
Proof.
  unfold finalProcessedFiles.
  assert (H0 : (totalLength [] <= MAX_CONTEXT_CHARS)%Z)
    by (unfold MAX_CONTEXT_CHARS; simpl; lia).
  destruct (@budgetLoop_prefix (allResults (validFiles files)) [] H0)
    as (incl & excl & Hf & Hl & Hs & Hk).
  simpl in Hl, Hs, Hk. exists excl. rewrite Hl. auto.
Qed.

(** X1: whatever a folder upload merges comes from a file of the folder
    that is eligible, whose read succeeded and whose text is not blank;
    the merged text is the text read and the name is the relative path. *)
Theorem X1_merged_files_are_eligible_and_read :
  forall (files : list File) (r : FileResult),
    In r (finalProcessedFiles files) ->
    exists f,
      In f files
      /\ isValidFile f = true
      /\ readByExtension (extensionOf f) f = Some (fr_content r)
      /\ fr_name r = webkitRelativePath f
      /\ hasContent r = true.
Proof.
  intros files r Hin.
  destruct (finalProcessedFiles_prefix files) as (excl & Hf & _).
  assert (Hc : In r (filter hasContent (allResults (validFiles files))))
    by (rewrite Hf; apply in_or_app; now left).
  apply filter_In in Hc as [Hall Hc].
  destruct (allResults_In _ _ Hall) as (f & Hfin & Hread & Hname).
  apply filter_In in Hfin as [Hfin Hvalid].
  exists f. auto.
Qed.

(** X1 on the small folder: the merged world comes from c.MD. *)
Lemma X1_merged_files_are_eligible_and_read_witness :
  exists f,
    In f smallFolder
    /\ isValidFile f = true
    /\ readByExtension (extensionOf f) f = Some (lit "world")
    /\ lit "d/c.MD" = webkitRelativePath f
    /\ hasContent {| fr_name := lit "d/c.MD"; fr_content := lit "world" |} = true.
Proof.
  apply (@X1_merged_files_are_eligible_and_read smallFolder
           {| fr_name := lit "d/c.MD"; fr_content := lit "world" |}).
  vm_compute. right. left. reflexivity.
Defined.

(** X2: a file that is not eligible, or whose read fails, or whose text is
    blank, changes neither the merged text nor the number of merged
    files, wherever it stands in the folder: one bad file never disturbs
    the rest of the batch. *)
Theorem X2_bad_file_does_not_disturb_batch :
  forall (before after : list File) (f : File),
    contributesNothing f ->
    fullContent (processFolder (before ++ f :: after))
    = fullContent (processFolder (before ++ after))
    /\ processedCount (processFolder (before ++ f :: after))
       = processedCount (processFolder (before ++ after)).
Proof.
  intros before after f Hf.
  assert (E : finalProcessedFiles (before ++ f :: after)
              = finalProcessedFiles (before ++ after)).
  { unfold finalProcessedFiles, validFiles.
    rewrite !filter_app, !allResults_app. simpl filter.
    destruct Hf as [Hv|[Hr|(t & Hr & Hc)]].
    - now rewrite Hv.
    - destruct (isValidFile f); [|reflexivity]. simpl allResults. now rewrite Hr.
    - destruct (isValidFile f); [|reflexivity]. simpl allResults. rewrite Hr.
      simpl app. now apply budgetLoop_skip. }
  unfold processFolder. cbn [fullContent processedCount]. now rewrite E.
Qed.

(** X2 on the small folder: with or without the unreadable b.pdf the
    merged text is the same. *)
Lemma X2_bad_file_does_not_disturb_batch_witness :
  fullContent (processFolder smallFolder)
  = fullContent (processFolder [ textFile "a.txt" 5 (lit "hello");
                                 textFile "c.MD" 5 (lit "world") ])
  /\ processedCount (processFolder smallFolder) = 2%nat.
Proof.
  destruct (@X2_bad_file_does_not_disturb_batch
              [textFile "a.txt" 5 (lit "hello")]
              [textFile "c.MD" 5 (lit "world")] (unreadableFile "b.pdf"))
    as [H1 H2].
  - right. left. reflexivity.
  - split; [exact H1|]. etransitivity; [exact H2 | reflexivity].
Defined.

Lemma strlen_join_blocks (l : list FileResult) :
  strlen (join [10%N; 10%N] (map fileBlock l))
  = (totalLength l + headerLength l + 2 * Z.of_nat (List.length l - 1))%Z.
Proof.
  induction l as [|r l IH]; [reflexivity|].
  assert (Hb : strlen (fileBlock r) = (strlen (fr_name r) + 15 + strlen (fr_content r))%Z).
  { unfold fileBlock. rewrite !strlen_app.
    change (strlen (lit "--- File: ")) with 10%Z.
    change (strlen (lit " ---")) with 4%Z.
    change (strlen [10%N]) with 1%Z. lia. }
  destruct l as [|r' l].
  - simpl map. simpl join. rewrite Hb. simpl. lia.
  - change (join [10%N; 10%N] (map fileBlock (r :: r' :: l)))
      with (fileBlock r ++ [10%N; 10%N] ++ join [10%N; 10%N] (map fileBlock (r' :: l))).
    rewrite !strlen_app, IH, Hb.
    change (strlen [10%N; 10%N]) with 2%Z.
    cbn [totalLength headerLength List.length]. lia.
Qed.

(** X3: the text a folder upload attaches is longer than the texts it
    merges by exactly one header of 15 characters plus the relative path
    per file and one blank line between files; so it has at most
    [MAX_CONTEXT_CHARS] characters plus that overhead. *)
Theorem X3_folder_content_length :
  forall (files : list File),
    strlen (fullContent (processFolder files))
    = (totalLength (finalProcessedFiles files)
       + headerLength (finalProcessedFiles files)
       + 2 * Z.of_nat (processedCount (processFolder files) - 1))%Z
    /\ (strlen (fullContent (processFolder files))
        <= MAX_CONTEXT_CHARS + headerLength (finalProcessedFiles files)
           + 2 * Z.of_nat (processedCount (processFolder files) - 1))%Z.
Proof.
  intros files.
  destruct (finalProcessedFiles_prefix files) as (excl & _ & Hs & _).
  unfold processFolder. cbn [fullContent processedCount].
  rewrite strlen_join_blocks. split; lia.
Qed.

(** X4: when the non-blank texts of a folder fit the budget together,
    every one of them is merged: nothing is dropped without need. *)
Theorem X4_everything_merged_when_it_fits :
  forall (files : list File),
    (totalLength (filter hasContent (allResults (validFiles files)))
     <= MAX_CONTEXT_CHARS)%Z ->
    finalProcessedFiles files = filter hasContent (allResults (validFiles files)).
Proof.
  intros files Hfit.
  destruct (finalProcessedFiles_prefix files) as (excl & Hf & _ & Hk).
  rewrite Hf in *. destruct excl as [|k excl]; [now rewrite app_nil_r|].
  exfalso. rewrite totalLength_app in Hfit. simpl in Hfit.
  assert (Hnn : forall l, (0 <= totalLength l)%Z).
  { induction l as [|x l IH]; simpl; [lia|].
    pose proof (strlen_nonneg (fr_content x)). lia. }
  pose proof (Hnn excl). lia.
Qed.

(** X4 on the small folder: both readable files are merged, in order. *)
Lemma X4_everything_merged_when_it_fits_witness :
  finalProcessedFiles smallFolder
  = [ {| fr_name := lit "d/a.txt"; fr_content := lit "hello" |};
      {| fr_name := lit "d/c.MD"; fr_content := lit "world" |} ].
Proof.
  rewrite (@X4_everything_merged_when_it_fits smallFolder).
  - reflexivity.
  - vm_compute. discriminate.
Defined.

Lemma split_app_sep (sep : N) (b : jsstring) :
  forall a, exists p0 ps, split sep (a ++ sep :: b) = (p0 :: ps) ++ split sep b.
Proof.
  induction a as [|c a (p0 & ps & IH)]; simpl.
  - rewrite N.eqb_refl. exists [], []. reflexivity.
  - destruct (c =? sep)%N.
    + exists [], (p0 :: ps). now rewrite IH.
    + rewrite IH. exists (c :: p0), ps. reflexivity.
Qed.

Lemma split_no_sep (sep : N) (s : jsstring) : ~ In sep s -> split sep s = [s].
Proof.
  induction s as [|c s IH]; intros Hn; simpl; [reflexivity|].
  destruct (N.eqb_spec c sep) as [->|_]; [exfalso; apply Hn; now left|].
  rewrite IH; [reflexivity|]. intros H. apply Hn. now right.
Qed.

(** X5: the type of a file is read from the text after the last dot of
    its name, in lower case; a name without a dot is taken whole, so a
    file named json, with no dot, counts as a .json file. *)
Theorem X5_extension_is_text_after_last_dot :
  forall (f : File),
    (forall base ext,
        file_name f = base ++ 46%N :: ext -> ~ In 46%N ext ->
        extensionOf f = 46%N :: toLowerCase ext)
    /\ (~ In 46%N (file_name f) ->
        extensionOf f = 46%N :: toLowerCase (file_name f)).
Proof.
  intros f. unfold extensionOf. split.
  - intros base ext Hname Hext. rewrite Hname.
    destruct (split_app_sep 46 ext base) as (p0 & ps & ->).
    rewrite (@split_no_sep 46 ext Hext), last_last. reflexivity.
  - intros Hn. rewrite (@split_no_sep 46 _ Hn). reflexivity.
Qed.

(** X5 on two names: archive.tar.JSON and json. *)
Lemma X5_extension_is_text_after_last_dot_witness :
  extensionOf (textFile "archive.tar.JSON" 2 (lit "{}")) = lit ".json"
  /\ extensionOf (textFile "json" 2 (lit "{}")) = lit ".json"
  /\ isValidFile (textFile "json" 2 (lit "{}")) = true.
Proof.
  split; [|split; [|reflexivity]].
  - rewrite (proj1 (X5_extension_is_text_after_last_dot
                      (textFile "archive.tar.JSON" 2 (lit "{}")))
               (lit "archive.tar") (lit "JSON") eq_refl).
    + reflexivity.
    + vm_compute. intros [H|[H|[H|[H|[]]]]]; discriminate H.
  - rewrite (proj2 (X5_extension_is_text_after_last_dot
                      (textFile "json" 2 (lit "{}")))).
    + reflexivity.
    + vm_compute. intros [H|[H|[H|[H|[]]]]]; discriminate H.
Defined.

(** ** The text of a PDF *)

Lemma trimStart_blank (s : jsstring) :
  Forall (fun c => isWhiteSpace c = true) s -> trimStart s = [].
Proof. induction 1 as [|c s Hc _ IH]; simpl; [reflexivity | now rewrite Hc]. Qed.

Lemma trim_blank (s : jsstring) :
  Forall (fun c => isWhiteSpace c = true) s -> trim s = [].
Proof. intros H. unfold trim, trimEnd. now rewrite (trimStart_blank H). Qed.

Lemma join_blank (sep : jsstring) (l : list jsstring) :
  Forall (fun c => isWhiteSpace c = true) sep ->
  Forall (Forall (fun c => isWhiteSpace c = true)) l ->
  Forall (fun c => isWhiteSpace c = true) (join sep l).
Proof.
  intros Hsep Hl. induction Hl as [|x l Hx Hl IH]; [constructor|].
  destruct l as [|y l]; [exact Hx|].
  change (join sep (x :: y :: l)) with (x ++ sep ++ join sep (y :: l)).
  repeat (apply Forall_app; split); auto.
Qed.

Lemma pdfFullText_blank_from (pages : list (list (option jsstring))) :
  (forall items str, In items pages -> In (Some str) items ->
                     Forall (fun c => isWhiteSpace c = true) str) ->
  forall acc,
    Forall (fun c => isWhiteSpace c = true) acc ->
    Forall (fun c => isWhiteSpace c = true)
      (fold_left (fun fullText items => fullText ++ pageText items ++ [10%N]) pages acc).
Proof.
  induction pages as [|items pages IH]; intros Hp acc Hacc; [exact Hacc|].
  simpl. apply IH.
  - intros items' str Hin. apply Hp. now right.
  - apply Forall_app; split; [exact Hacc|].
    apply Forall_app; split; [|repeat constructor].
    unfold pageText. apply join_blank; [repeat constructor|].
    apply Forall_forall. intros x Hx. apply in_map_iff in Hx as ([str|] & <- & Hi).
    + apply (Hp items str); [now left | exact Hi].
    + constructor.
Qed.

(** X6: a PDF without pages gives the empty text, and a PDF none of whose
    text items holds a printing character (a scan, say) gives a blank
    text; in a folder upload such a PDF has no content and is never
    merged. *)
Theorem X6_pdf_without_text_is_blank :
  forall (pages : list (list (option jsstring))) (name : jsstring),
    pdfFullText [] = []
    /\ ((forall items str, In items pages -> In (Some str) items ->
                           Forall (fun c => isWhiteSpace c = true) str) ->
        trim (pdfFullText pages) = []
        /\ hasContent {| fr_name := name; fr_content := pdfFullText pages |} = false).
Proof.
  intros pages name. split; [reflexivity|]. intros Hp.
  assert (Ht : trim (pdfFullText pages) = []).
  { apply trim_blank. unfold pdfFullText. apply pdfFullText_blank_from; auto. }
  split; [exact Ht|]. unfold hasContent. cbn [fr_content]. rewrite Ht.
  apply andb_false_r.
Qed.

(** X6 on a scan of two pages, one with two items that lack [str]. *)
Lemma X6_pdf_without_text_is_blank_witness :
  pdfFullText [[None; None]; []] = [32%N; 10%N; 10%N]
  /\ hasContent {| fr_name := lit "d/scan.pdf";
                   fr_content := pdfFullText [[None; None]; []] |} = false.
Proof.
  split; [reflexivity|].
  apply (proj2 (X6_pdf_without_text_is_blank [[None; None]; []] (lit "d/scan.pdf"))).
  intros items str [<-|[<-|[]]] Hin.
  - destruct Hin as [H|[H|[]]]; discriminate H.
  - destruct Hin.
Defined.

(** ** Uploads and the local context *)

Lemma truncateContent_fits (t : jsstring) :
  (strlen (fst (truncateContent t)) <= MAX_CONTEXT_CHARS)%Z.
Proof.
  unfold truncateContent.
  destruct (strlen t >? MAX_CONTEXT_CHARS)%Z eqn:E; cbn [fst].
  - rewrite substring_prefix by (unfold MAX_CONTEXT_CHARS; lia).
    apply Z.gtb_lt in E. rewrite strlen_firstn; [lia|].
    unfold MAX_CONTEXT_CHARS in *. lia.
  - rewrite Z.gtb_ltb in E. apply Z.ltb_ge in E. exact E.
Qed.

Section ContextFacts.

Variable API_KEY : option jsstring.

Lemma step_contextWellFormed (now : N) (e : Event) (st : AppState) :
  contextWellFormed (localContext st) ->
  contextWellFormed (localContext (fst (step API_KEY now e st))).
Proof.
  intros H. destruct e; unfold step; cbn [fst]; try exact I; try exact H.
  - unfold onAdd. destruct (handleAddGroup now name st); [exact I | exact H].
  - unfold onRemoveGroup.
    destruct (handleRemoveGroup groupId confirmed st); [exact H | exact I | exact I].
  - unfold onSetGroupId. destruct (eqb id (activeUrlGroupId st)); [exact H | exact I].
  - unfold handleFileUpload.
    destruct (negb (includes ALLOWED_EXTENSIONS (extensionOf file))); exact H.
  - unfold handleFileUpload_settled.
    destruct (readByExtension (extensionOf file) file) as [t|]; [|exact H].
    pose proof (truncateContent_fits t) as Hfit.
    destruct (truncateContent t) as [finalContent wasTruncated].
    cbn [fst] in Hfit. split; [apply le_n|]. intros _. split; [reflexivity | exact Hfit].
  - unfold handleFolderUpload_settled.
    destruct (Nat.eqb (processedCount (processFolder files)) 0) eqn:E; [exact H|].
    apply Nat.eqb_neq in E. split; [cbn [count]; lia | discriminate].
  - unfold handleSendMessage.
    destruct (negb (truthy (trim query)) || isLoading st || isFetchingSuggestions st);
      [exact H|].
    destruct (negb (Gemini.keySet API_KEY)); [exact H|].
    destruct (Gemini.generateContentWithUrlContext API_KEY query
                (currentUrlsForChat st) (option_map content (localContext st)));
      exact H.
  - unfold suggestionsEffect, fetchAndSetInitialSuggestions.
    destruct ((0 <? List.length (currentUrlsForChat st))%nat && Gemini.keySet API_KEY);
      [|exact H].
    destruct (currentUrlsForChat st) as [|u us]; [exact H|].
    destruct (Gemini.getInitialSuggestions API_KEY (u :: us)) as [r|m|r];
      try exact H.
    unfold fetchAndSetInitialSuggestions_settled.
    destruct (Gemini.text r) as [[|c cs]|]; try exact H.
    destruct (parseSuggestions (c :: cs)); exact H.
  - unfold fetchAndSetInitialSuggestions_settled.
    destruct (Gemini.getInitialSuggestions_settle answer) as [r|m]; [|exact H].
    destruct (Gemini.text r) as [[|c cs]|]; try exact H.
    destruct (parseSuggestions (c :: cs)); exact H.
Qed.

End ContextFacts.

(** X7: in every state of a run an attached local context counts at
    least one file; a context attached from a single file counts exactly
    one and its content has at most [MAX_CONTEXT_CHARS] characters. *)
Theorem X7_attached_context_is_well_formed :
  forall (API_KEY : option jsstring) (st : AppState) (c : LocalContext),
    reachable API_KEY st ->
    localContext st = Some c ->
    (1 <= count c)%nat
    /\ (ctx_type c = CtxFile ->
        count c = 1%nat /\ (strlen (content c) <= MAX_CONTEXT_CHARS)%Z).
Proof.
  intros API_KEY st c Hr Hc.
  assert (H : contextWellFormed (localContext st)).
  { clear Hc. induction Hr as [now|now e st Hr IH]; [exact I|].
    now apply step_contextWellFormed. }
  rewrite Hc in H. exact H.
Qed.

(** X7 on the application with notes.txt attached. *)
Lemma X7_attached_context_is_well_formed_witness :
  (1 <= 1)%nat
  /\ (CtxFile = CtxFile ->
      1%nat = 1%nat /\ (strlen (lit "hello") <= MAX_CONTEXT_CHARS)%Z).
Proof.
  apply (@X7_attached_context_is_well_formed None (withAttachedFile None)
           {| ctx_type := CtxFile; ctx_name := lit "notes.txt";
              content := lit "hello"; count := 1 |}).
  - change (withAttachedFile None)
      with (fst (step None 2 (FileSettled (textFile "notes.txt" 5 (lit "hello")))
                   (fst (step None 1
                           (OnFileUpload (textFile "notes.txt" 5 (lit "hello")))
                           (mounted None))))).
    apply reachable_step, reachable_step, reachable_mount.
  - reflexivity.
Defined.

(** X8: every single-file upload, whatever its outcome, appends exactly
    one system message to the log and ends with the busy flag down; the
    attached context changes only when the type is supported and the read
    succeeds, and is left as it was otherwise. *)
Theorem X8_single_file_upload_outcomes :
  forall (now later : N) (file : File) (st : AppState),
    (exists m, chatMessages (uploadFile now later file st) = chatMessages st ++ [m]
               /\ sender m = SYSTEM)
    /\ (includes ALLOWED_EXTENSIONS (extensionOf file) = false ->
        localContext (uploadFile now later file st) = localContext st
        /\ isProcessingFiles (uploadFile now later file st) = isProcessingFiles st)
    /\ (includes ALLOWED_EXTENSIONS (extensionOf file) = true ->
        isProcessingFiles (uploadFile now later file st) = false
        /\ (readByExtension (extensionOf file) file = None ->
            localContext (uploadFile now later file st) = localContext st)
        /\ (forall t, readByExtension (extensionOf file) file = Some t ->
                      exists c, localContext (uploadFile now later file st) = Some c
                                /\ ctx_type c = CtxFile
                                /\ ctx_name c = file_name file
                                /\ count c = 1%nat)).
Proof.
  intros now later file st. unfold uploadFile, handleFileUpload.
  destruct (includes ALLOWED_EXTENSIONS (extensionOf file)) eqn:Ea; cbn [negb].
  - unfold handleFileUpload_settled.
    destruct (readByExtension (extensionOf file) file) as [t|] eqn:Er.
    + destruct (truncateContent t) as [finalContent wasTruncated].
      split; [eexists; split; reflexivity|]. split; [discriminate|].
      intros _. split; [reflexivity|]. split; [discriminate|].
      intros t' _. eexists. repeat split.
    + split; [eexists; split; reflexivity|]. split; [discriminate|].
      intros _. split; [reflexivity|]. split; [reflexivity|]. discriminate.
  - split; [eexists; split; reflexivity|]. split; [split; reflexivity|]. discriminate.
Qed.

(** X8 on three uploads: an unsupported type, an unreadable file, a
    readable one. *)
Lemma X8_single_file_upload_outcomes_witness :
  localContext (uploadFile 1 2 (textFile "run.exe" 5 (lit "hello")) (withAttachedFile None))
  = localContext (withAttachedFile None)
  /\ localContext (uploadFile 1 2 (unreadableFile "b.pdf") (withAttachedFile None))
     = localContext (withAttachedFile None)
  /\ exists c,
       localContext (uploadFile 1 2 (textFile "a.txt" 5 (lit "hello")) (mounted None))
       = Some c
       /\ ctx_type c = CtxFile /\ ctx_name c = lit "a.txt" /\ count c = 1%nat.
Proof.
  split; [|split].
  - apply (proj1 (proj2 (X8_single_file_upload_outcomes 1 2
                           (textFile "run.exe" 5 (lit "hello"))
                           (withAttachedFile None)))).
    reflexivity.
  - destruct (proj2 (proj2 (X8_single_file_upload_outcomes 1 2 (unreadableFile "b.pdf")
                              (withAttachedFile None))) eq_refl) as (_ & H & _).
    apply H. reflexivity.
  - destruct (proj2 (proj2 (X8_single_file_upload_outcomes 1 2
                              (textFile "a.txt" 5 (lit "hello")) (mounted None)))
                eq_refl) as (_ & _ & H).
    apply (H (lit "hello")). reflexivity.
Defined.

(** X9: every folder upload appends exactly two system messages (the
    notice that processing started, then the outcome) and ends with the
    busy flag down; a context of type folder is attached, counting the
    merged files, exactly when at least one file was merged, and the
    context is left as it was when none was. *)
Theorem X9_folder_upload_outcomes :
  forall (now later : N) (files : list File) (st : AppState),
    (exists m1 m2,
        chatMessages (uploadFolder now later files st) = chatMessages st ++ [m1; m2]
        /\ sender m1 = SYSTEM /\ sender m2 = SYSTEM)
    /\ isProcessingFiles (uploadFolder now later files st) = false
    /\ (processedCount (processFolder files) = 0%nat ->
        localContext (uploadFolder now later files st) = localContext st)
    /\ (processedCount (processFolder files) <> 0%nat ->
        localContext (uploadFolder now later files st)
        = Some {| ctx_type := CtxFolder; ctx_name := folderNameOf files;
                  content := fullContent (processFolder files);
                  count := processedCount (processFolder files) |}).
Proof.
  intros now later files st. unfold uploadFolder, handleFolderUpload_settled.
  destruct (Nat.eqb (processedCount (processFolder files)) 0) eqn:E.
  - apply Nat.eqb_eq in E. split.
    + eexists. eexists.
      split; [ unfold handleFolderUpload, appendMessage;
               cbn [chatMessages setChatMessages setIsProcessingFiles setLocalContext];
               rewrite <- app_assoc; reflexivity
             | split; reflexivity ].
    + split; [reflexivity|]. split; [reflexivity | congruence].
  - apply Nat.eqb_neq in E. split.
    + eexists. eexists.
      split; [ unfold handleFolderUpload, appendMessage;
               cbn [chatMessages setChatMessages setIsProcessingFiles setLocalContext];
               rewrite <- app_assoc; reflexivity
             | split; reflexivity ].
    + split; [reflexivity|]. split; [congruence | reflexivity].
Qed.

(** X9 on the small folder, and on a folder without an eligible file. *)
Lemma X9_folder_upload_outcomes_witness :
  localContext (uploadFolder 1 2 [textFile "run.exe" 5 (lit "hello")] (mounted None))
  = None
  /\ localContext (uploadFolder 1 2 smallFolder (mounted None))
     = Some {| ctx_type := CtxFolder; ctx_name := lit "d";
               content := fullContent (processFolder smallFolder); count := 2 |}.
Proof.
  split.
  - apply (proj1 (proj2 (proj2 (X9_folder_upload_outcomes 1 2
                                  [textFile "run.exe" 5 (lit "hello")] (mounted None))))).
    reflexivity.
  - apply (proj2 (proj2 (proj2 (X9_folder_upload_outcomes 1 2 smallFolder
                                  (mounted None))))).
    vm_compute. discriminate.
Defined.

(** ** The group collection *)

Lemma includes_In (l : list jsstring) (x : jsstring) :
  includes l x = true <-> In x l.
Proof.
  unfold includes. rewrite existsb_exists. split.
  - intros (y & Hy & E). apply eqb_eq in E. now subst.
  - intros H. exists x. split; [exact H | apply eqb_refl].
Qed.

Lemma includes_not_In (l : list jsstring) (x : jsstring) :
  includes l x = false <-> ~ In x l.
Proof.
  rewrite <- includes_In. destruct (includes l x); split; intro H; congruence.
Qed.

Lemma noDupB_NoDup (l : list jsstring) : noDupB l = true -> NoDup l.
Proof.
  induction l as [|x l IH]; simpl; intros H; [constructor|].
  apply andb_true_iff in H as [Hx Hl]. apply negb_true_iff in Hx.
  constructor; [now apply includes_not_In | now apply IH].
Qed.

Lemma NoDup_snoc {A : Type} (l : list A) (x : A) :
  NoDup l -> ~ In x l -> NoDup (l ++ [x]).
Proof.
  intros Hl Hx. induction Hl as [|y l Hy Hl IH]; simpl.
  - constructor; [intros [] | constructor].
  - constructor.
    + intros Hin. apply in_app_or in Hin as [Hin|[->|[]]]; [contradiction|].
      apply Hx. now left.
    + apply IH. intros Hin. apply Hx. now right.
Qed.

Lemma initial_groups_well_formed : groupsWellFormed INITIAL_URL_GROUPS.
Proof.
  split.
  - apply noDupB_NoDup. vm_compute. reflexivity.
  - constructor; [|constructor; [|constructor]];
      (split; [ vm_compute; lia | apply noDupB_NoDup; vm_compute; reflexivity ]).
Qed.

Lemma handleAddUrl_well_formed (url : jsstring) (st : AppState) :
  groupsWellFormed (urlGroups st) -> groupsWellFormed (urlGroups (handleAddUrl url st)).
Proof.
  intros [Hn Hu]. unfold handleAddUrl. cbn [urlGroups setUrlGroups].
  fold (urlGroups st). split.
  - rewrite map_map.
    erewrite map_ext; [exact Hn|]. intros g. cbn beta.
    destruct (eqb (group_id g) (activeUrlGroupId st)); [|reflexivity].
    destruct ((List.length (urls g) <? MAX_URLS)%nat && negb (includes (urls g) url));
      reflexivity.
  - apply Forall_map. eapply Forall_impl; [|exact Hu].
    intros g [Hlen Hnd]. cbn beta.
    destruct (eqb (group_id g) (activeUrlGroupId st)); [|auto].
    destruct (List.length (urls g) <? MAX_URLS)%nat eqn:El; cbn [andb]; [|auto].
    destruct (includes (urls g) url) eqn:Ei; cbn [negb urls]; [auto|].
    apply Nat.ltb_lt in El. split.
    + rewrite length_app. simpl. lia.
    + apply NoDup_snoc; [exact Hnd | now apply includes_not_In].
Qed.

Lemma handleRemoveUrl_well_formed (url : jsstring) (st : AppState) :
  groupsWellFormed (urlGroups st) ->
  groupsWellFormed (urlGroups (handleRemoveUrl url st)).
Proof.
  intros [Hn Hu]. unfold handleRemoveUrl. cbn [urlGroups setUrlGroups].
  fold (urlGroups st). split.
  - rewrite map_map.
    erewrite map_ext; [exact Hn|]. intros g. cbn beta.
    destruct (eqb (group_id g) (activeUrlGroupId st)); reflexivity.
  - apply Forall_map. eapply Forall_impl; [|exact Hu].
    intros g [Hlen Hnd]. cbn beta.
    destruct (eqb (group_id g) (activeUrlGroupId st)); [|auto].
    cbn [urls]. split.
    + pose proof (filter_length_le (fun u => negb (eqb u url)) (urls g)). lia.
    + now apply NoDup_filter.
Qed.

Lemma handleAddGroup_well_formed (now : N) (name : jsstring) (st st' : AppState) :
  groupsWellFormed (urlGroups st) ->
  handleAddGroup now name st = Some st' ->
  groupsWellFormed (urlGroups st').
Proof.
  intros [Hn Hu]. unfold handleAddGroup.
  destruct (negb (truthy (trim name))) eqn:Eb; [discriminate|].
  destruct (existsb (fun g => eqb (group_name g) (trim name)) (urlGroups st)) eqn:Ee;
    [discriminate|].
  cbn [orb]. intros H. injection H as <-.
  cbn [urlGroups setUrlGroups setActiveUrlGroupId setIsAddGroupModalOpen].
  fold (urlGroups st). split.
  - rewrite map_app. cbn [map group_name]. apply NoDup_snoc; [exact Hn|].
    intros Hin. apply in_map_iff in Hin as (g & Hg & Hin).
    assert (Ht : existsb (fun g => eqb (group_name g) (trim name)) (urlGroups st) = true).
    { apply existsb_exists. exists g. split; [exact Hin | now apply eqb_eq]. }
    congruence.
  - apply Forall_app. split; [exact Hu|].
    constructor; [|constructor]. cbn [urls]. split; [simpl; unfold MAX_URLS; lia|].
    constructor.
Qed.

Lemma handleRemoveGroup_well_formed (groupId : jsstring) (confirmed : bool)
      (st : AppState) :
  groupsWellFormed (urlGroups st) ->
  match handleRemoveGroup groupId confirmed st with
  | Refused => True
  | Removed st' => groupsWellFormed (urlGroups st')
  | RemovedThenThrew st' => groupsWellFormed (urlGroups st')
  end.
Proof.
  intros [Hn Hu].
  assert (Hf : groupsWellFormed
                 (filter (fun g => negb (eqb (group_id g) groupId)) (urlGroups st))).
  { split.
    - clear Hu. induction (urlGroups st) as [|g gs IH]; [constructor|].
      simpl in *. inversion Hn as [|x l Hx Hl]; subst.
      destruct (negb (eqb (group_id g) groupId)); [|now apply IH].
      simpl. constructor; [|now apply IH].
      intros Hin. apply Hx. apply in_map_iff in Hin as (g' & Hg' & Hin).
      apply filter_In in Hin as [Hin _]. apply in_map_iff. exists g'. auto.
    - apply Forall_forall. intros g Hg. apply filter_In in Hg as [Hg _].
      rewrite Forall_forall in Hu. now apply Hu. }
  unfold handleRemoveGroup.
  destruct (List.length (urlGroups st) <=? 1)%nat; [exact I|].
  destruct confirmed; [|exact I].
  destruct (eqb (activeUrlGroupId st) groupId).
  - destruct (filter _ (urlGroups st)) as [|g gs] eqn:E; [split; constructor|].
    exact Hf.
  - exact Hf.
Qed.

Section GroupInvariant.

Variable API_KEY : option jsstring.

Lemma welcomeEffect_urlGroups (now : N) (st : AppState) :
  urlGroups (welcomeEffect API_KEY now st) = urlGroups st.
Proof. reflexivity. Qed.

Lemma step_groups_well_formed (now : N) (e : Event) (st : AppState) :
  groupsWellFormed (urlGroups st) ->
  groupsWellFormed (urlGroups (fst (step API_KEY now e st))).
Proof.
  intros H. destruct e; unfold step; cbn [fst]; try exact H.
  - now apply handleAddUrl_well_formed.
  - now apply handleRemoveUrl_well_formed.
  - unfold onAdd. destruct (handleAddGroup now name st) as [st'|] eqn:E; [|exact H].
    apply (@handleAddGroup_well_formed now name st st' H E).
  - unfold onRemoveGroup.
    pose proof (@handleRemoveGroup_well_formed groupId confirmed st H) as Hr.
    destruct (handleRemoveGroup groupId confirmed st); [exact H | exact Hr | exact Hr].
  - unfold onSetGroupId. destruct (eqb id (activeUrlGroupId st)); exact H.
  - unfold handleFileUpload.
    destruct (negb (includes ALLOWED_EXTENSIONS (extensionOf file))); exact H.
  - unfold handleFileUpload_settled.
    destruct (readByExtension (extensionOf file) file) as [t|]; [|exact H].
    destruct (truncateContent t); exact H.
  - unfold handleFolderUpload_settled.
    destruct (Nat.eqb (processedCount (processFolder files)) 0); exact H.
  - unfold handleSendMessage.
    destruct (negb (truthy (trim query)) || isLoading st || isFetchingSuggestions st);
      [exact H|].
    destruct (negb (Gemini.keySet API_KEY)); [exact H|].
    destruct (Gemini.generateContentWithUrlContext API_KEY query
                (currentUrlsForChat st) (option_map content (localContext st)));
      exact H.
  - unfold suggestionsEffect, fetchAndSetInitialSuggestions.
    destruct ((0 <? List.length (currentUrlsForChat st))%nat && Gemini.keySet API_KEY);
      [|exact H].
    destruct (currentUrlsForChat st) as [|u us]; [exact H|].
    destruct (Gemini.getInitialSuggestions API_KEY (u :: us)) as [r|m|r];
      try exact H.
    unfold fetchAndSetInitialSuggestions_settled.
    destruct (Gemini.text r) as [[|c cs]|]; try exact H.
    destruct (parseSuggestions (c :: cs)); exact H.
  - unfold fetchAndSetInitialSuggestions_settled.
    destruct (Gemini.getInitialSuggestions_settle answer) as [r|m]; [|exact H].
    destruct (Gemini.text r) as [[|c cs]|]; try exact H.
    destruct (parseSuggestions (c :: cs)); exact H.
Qed.

End GroupInvariant.

(** X10: in every state of a run the names of the groups are pairwise
    distinct, and every group holds at most [MAX_URLS] (50) URLs, none of
    them twice. *)
Theorem X10_groups_stay_well_formed :
  forall (API_KEY : option jsstring) (st : AppState),
    reachable API_KEY st ->
    NoDup (map group_name (urlGroups st))
    /\ forall g, In g (urlGroups st) ->
                 (List.length (urls g) <= 50)%nat /\ NoDup (urls g).
Proof.
  intros API_KEY st Hr.
  assert (H : groupsWellFormed (urlGroups st)).
  { induction Hr as [now|now e st Hr IH].
    - exact initial_groups_well_formed.
    - now apply step_groups_well_formed. }
  destruct H as [Hn Hu]. split; [exact Hn|].
  intros g Hg. rewrite Forall_forall in Hu. exact (Hu g Hg).
Qed.

(** X10 after adding a URL to the mounted application. *)
Lemma X10_groups_stay_well_formed_witness :
  NoDup (map group_name (urlGroups (onAddUrl None 5 (lit "https://example.com/")
                                      (mounted None)))).
Proof.
  apply (X10_groups_stay_well_formed
           (API_KEY := None)
           (st := onAddUrl None 5 (lit "https://example.com/") (mounted None))).
  change (onAddUrl None 5 (lit "https://example.com/") (mounted None))
    with (fst (step None 5 (OnAddUrl (lit "https://example.com/")) (mounted None))).
  apply reachable_step, reachable_mount.
Defined.

Lemma filter_all_true {A : Type} (p : A -> bool) (l : list A) :
  (forall x, In x l -> p x = true) -> filter p l = l.
Proof.
  induction l as [|x l IH]; intros H; simpl; [reflexivity|].
  rewrite (H x (or_introl eq_refl)), IH; [reflexivity|].
  intros y Hy. apply H. now right.
Qed.

Lemma filter_out_absent (url : jsstring) (l : list jsstring) :
  ~ In url l -> filter (fun u => negb (eqb u url)) l = l.
Proof.
  intros Hn. apply filter_all_true. intros x Hx.
  apply negb_true_iff, eqb_neq. intros ->. contradiction.
Qed.

(** X11: removing a URL leaves no occurrence of it in a group with the
    active id, and removing it again changes nothing more; removing a URL
    right after adding it gives back the group collection as it was,
    provided the active group did not hold the URL before. *)
Theorem X11_remove_url_undoes_add :
  forall (url : jsstring) (st : AppState),
    (forall g, In g (urlGroups (handleRemoveUrl url st)) ->
               eqb (group_id g) (activeUrlGroupId st) = true -> ~ In url (urls g))
    /\ urlGroups (handleRemoveUrl url (handleRemoveUrl url st))
       = urlGroups (handleRemoveUrl url st)
    /\ ((forall g, In g (urlGroups st) ->
                   eqb (group_id g) (activeUrlGroupId st) = true -> ~ In url (urls g)) ->
        urlGroups (handleRemoveUrl url (handleAddUrl url st)) = urlGroups st).
Proof.
  intros url st. unfold handleRemoveUrl, handleAddUrl.
  cbn [urlGroups activeUrlGroupId setUrlGroups].
  fold (urlGroups st) (activeUrlGroupId st).
  split; [|split].
  - intros g Hg Ha. apply in_map_iff in Hg as (g0 & <- & _). 
    destruct (eqb (group_id g0) (activeUrlGroupId st)) eqn:E.
    + cbn [urls]. intros Hin. apply filter_In in Hin as [_ Hin].
      rewrite eqb_refl in Hin. discriminate.
    + congruence.
  - rewrite map_map. apply map_ext. intros g.
    destruct (eqb (group_id g) (activeUrlGroupId st)) eqn:E; cbn [group_id].
    + rewrite E. cbn [group_id group_name urls]. f_equal.
      apply filter_all_true. intros x Hx. now apply filter_In in Hx as [_ Hx].
    + now rewrite E.
  - intros Hfresh. rewrite map_map.
    rewrite <- (map_id (urlGroups st)) at 2. apply map_ext_in. intros g Hg.
    destruct (eqb (group_id g) (activeUrlGroupId st)) eqn:E.
    + pose proof (Hfresh g Hg E) as Hn.
      destruct ((List.length (urls g) <? MAX_URLS)%nat && negb (includes (urls g) url)).
      * cbn [group_id]. rewrite E. cbn [group_id group_name urls].
        rewrite filter_app, (@filter_out_absent url (urls g) Hn). cbn [filter].
        rewrite eqb_refl. cbn [negb]. rewrite app_nil_r. now destruct g.
      * rewrite E. rewrite (@filter_out_absent url (urls g) Hn). now destruct g.
    + now rewrite E.
Qed.

(** X11 on the mounted application and a new URL. *)
Lemma X11_remove_url_undoes_add_witness :
  urlGroups (handleRemoveUrl (lit "https://example.com/")
               (handleAddUrl (lit "https://example.com/") (mounted None)))
  = urlGroups (mounted None).
Proof.
  apply (proj2 (proj2 (X11_remove_url_undoes_add (lit "https://example.com/")
                         (mounted None)))).
  intros g Hg Ha. apply includes_not_In.
  destruct Hg as [<-|[<-|[]]]; [vm_compute; reflexivity | vm_compute in Ha; discriminate].
Defined.

Lemma find_map_same {A : Type} (p : A -> bool) (f : A -> A) (l : list A) :
  (forall x, p (f x) = p x) -> find p (map f l) = option_map f (find p l).
Proof.
  intros H. induction l as [|x l IH]; simpl; [reflexivity|].
  rewrite H. destruct (p x); [reflexivity | exact IH].
Qed.

Lemma find_is_some {A : Type} (p : A -> bool) (l : list A) (x : A) :
  In x l -> p x = true -> find p l <> None.
Proof.
  intros Hin Hp Hnone. apply (find_none _ _ Hnone) in Hin. congruence.
Qed.

Section ActiveGroup.

Variable API_KEY : option jsstring.

(** Uploads, sends, the suggestion effect and the settling of calls touch
    neither the group collection nor the active id. *)
Lemma step_keeps_groups (now : N) (e : Event) (st : AppState) :
  match e with
  | OnAddUrl _ | OnRemoveUrl _ | OnAdd _ | OnRemoveGroup _ _ | OnSetGroupId _ => True
  | _ => urlGroups (fst (step API_KEY now e st)) = urlGroups st
         /\ activeUrlGroupId (fst (step API_KEY now e st)) = activeUrlGroupId st
  end.
Proof.
  destruct e; try exact I; unfold step; cbn [fst]; try (split; reflexivity).
  - unfold handleFileUpload.
    destruct (negb (includes ALLOWED_EXTENSIONS (extensionOf file))); split; reflexivity.
  - unfold handleFileUpload_settled.
    destruct (readByExtension (extensionOf file) file) as [t|]; [|split; reflexivity].
    destruct (truncateContent t); split; reflexivity.
  - unfold handleFolderUpload_settled.
    destruct (Nat.eqb (processedCount (processFolder files)) 0); split; reflexivity.
  - unfold handleSendMessage.
    destruct (negb (truthy (trim query)) || isLoading st || isFetchingSuggestions st);
      [split; reflexivity|].
    destruct (negb (Gemini.keySet API_KEY)); [split; reflexivity|].
    destruct (Gemini.generateContentWithUrlContext API_KEY query
                (currentUrlsForChat st) (option_map content (localContext st)));
      split; reflexivity.
  - unfold suggestionsEffect, fetchAndSetInitialSuggestions.
    destruct ((0 <? List.length (currentUrlsForChat st))%nat && Gemini.keySet API_KEY);
      [|split; reflexivity].
    destruct (currentUrlsForChat st) as [|u us]; [split; reflexivity|].
    destruct (Gemini.getInitialSuggestions API_KEY (u :: us)) as [r|m|r];
      try (split; reflexivity).
    unfold fetchAndSetInitialSuggestions_settled.
    destruct (Gemini.text r) as [[|c cs]|]; try (split; reflexivity).
    destruct (parseSuggestions (c :: cs)); split; reflexivity.
  - unfold fetchAndSetInitialSuggestions_settled.
    destruct (Gemini.getInitialSuggestions_settle answer) as [r|m]; [|split; reflexivity].
    destruct (Gemini.text r) as [[|c cs]|]; try (split; reflexivity).
    destruct (parseSuggestions (c :: cs)); split; reflexivity.
Qed.

Lemma activeGroup_of (st st' : AppState) :
  urlGroups st' = urlGroups st -> activeUrlGroupId st' = activeUrlGroupId st ->
  activeGroup st' = activeGroup st.
Proof. unfold activeGroup. now intros -> ->. Qed.

End ActiveGroup.

(** X12: the active id keeps referring to a group of the collection.  If
    it does so before an event, the ids of the groups are pairwise
    distinct, and the group selector is only given the id of a listed
    group, then it does so after the event too. *)
Theorem X12_active_group_keeps_existing :
  forall (API_KEY : option jsstring) (now : N) (e : Event) (st : AppState),
    activeGroup st <> None ->
    NoDup (map group_id (urlGroups st)) ->
    (forall id, e = OnSetGroupId id ->
                exists g, In g (urlGroups st) /\ group_id g = id) ->
    activeGroup (fst (step API_KEY now e st)) <> None.
Proof.
  intros API_KEY now e st Hact Hnd Hsel.
  pose proof (step_keeps_groups API_KEY now e st) as Hkeep.
  destruct e;
    cbv beta iota in Hkeep;
    try (match type of Hkeep with
         | _ /\ _ => destruct Hkeep as [Hg Ha]
         end;
         unfold activeGroup in *; rewrite Hg, Ha; exact Hact);
    clear Hkeep; unfold step; cbn [fst].
  - (* add a URL *)
    unfold onAddUrl, activeGroup, handleAddUrl.
    cbn [urlGroups activeUrlGroupId setUrlGroups welcomeEffect setChatMessages
         setLocalContext].
    fold (urlGroups st) (activeUrlGroupId st).
    rewrite find_map_same.
    + unfold activeGroup in Hact. destruct (find _ (urlGroups st)); [discriminate|congruence].
    + intros g. destruct (eqb (group_id g) (activeUrlGroupId st)) eqn:E; [|exact E].
      destruct ((List.length (urls g) <? MAX_URLS)%nat && negb (includes (urls g) url));
        exact E.
  - (* remove a URL *)
    unfold onRemoveUrl, activeGroup, handleRemoveUrl.
    cbn [urlGroups activeUrlGroupId setUrlGroups welcomeEffect setChatMessages
         setLocalContext].
    fold (urlGroups st) (activeUrlGroupId st).
    rewrite find_map_same.
    + unfold activeGroup in Hact. destruct (find _ (urlGroups st)); [discriminate|congruence].
    + intros g. destruct (eqb (group_id g) (activeUrlGroupId st)) eqn:E; exact E.
  - (* add a group *)
    unfold onAdd, handleAddGroup.
    destruct (negb (truthy (trim name))
              || existsb (fun g => eqb (group_name g) (trim name)) (urlGroups st));
      [exact Hact|].
    unfold activeGroup.
    cbn [urlGroups activeUrlGroupId setUrlGroups setActiveUrlGroupId
         setIsAddGroupModalOpen welcomeEffect setChatMessages setLocalContext group_id].
    fold (urlGroups st).
    apply (@find_is_some _ _ _ {| group_id := lit "group-" ++ ofNat now;
                                  group_name := trim name; urls := [] |}).
    + apply in_or_app. right. now left.
    + apply eqb_refl.
  - (* remove a group *)
    unfold onRemoveGroup, handleRemoveGroup.
    destruct (List.length (urlGroups st) <=? 1)%nat eqn:El; [exact Hact|].
    destruct confirmed; [|exact Hact].
    apply Nat.leb_gt in El.
    destruct (eqb (activeUrlGroupId st) groupId) eqn:Ea.
    + destruct (@remaining_groups_nonempty groupId (urlGroups st) El Hnd)
        as (g & more & Eg).
      rewrite Eg. unfold activeGroup.
      cbn [urlGroups activeUrlGroupId setUrlGroups setActiveUrlGroupId welcomeEffect
           setChatMessages setLocalContext find].
      rewrite eqb_refl. discriminate.
    + unfold activeGroup in *.
      cbn [urlGroups activeUrlGroupId setUrlGroups welcomeEffect setChatMessages
           setLocalContext].
      fold (urlGroups st) (activeUrlGroupId st).
      destruct (find (fun group => eqb (group_id group) (activeUrlGroupId st))
                  (urlGroups st)) as [g|] eqn:Ef; [|congruence].
      apply find_some in Ef as [Hin Hid].
      apply (@find_is_some _ _ _ g); [|exact Hid].
      apply filter_In. split; [exact Hin|]. apply negb_true_iff.
      apply eqb_eq in Hid. rewrite Hid. exact Ea.
  - (* select a group *)
    unfold onSetGroupId. destruct (eqb id (activeUrlGroupId st)); [exact Hact|].
    destruct (Hsel id eq_refl) as (g & Hin & Hid).
    unfold activeGroup.
    cbn [urlGroups activeUrlGroupId setActiveUrlGroupId welcomeEffect setChatMessages
         setLocalContext].
    fold (urlGroups st).
    apply (@find_is_some _ _ _ g Hin). rewrite Hid. apply eqb_refl.
Qed.

(** X12 on the mounted application: removing the active first group. *)
Lemma X12_active_group_keeps_existing_witness :
  activeGroup (fst (step None 1 (OnRemoveGroup (lit "gemini-overview") true)
                      (mounted None))) <> None.
Proof.
  apply X12_active_group_keeps_existing.
  - vm_compute. discriminate.
  - apply noDupB_NoDup. vm_compute. reflexivity.
  - intros id H. discriminate H.
Defined.

(** ** Names of groups *)








(** ** The URL field of the manager *)

(** X14: whenever the manager hands a URL to [onAddUrl], for the URL list
    of the active group and the limit [MAX_URLS], the URL is what was
    typed, is not blank, passed [isValidUrl], and [handleAddUrl] does
    append it to the active group: the list the manager shows grows by
    that URL.  When the manager does not call [onAddUrl] it keeps the
    typed text and shows an error. *)
Theorem X14_manager_add_url_reaches_group :
  forall (isValidUrl : jsstring -> bool) (st : AppState) (g : URLGroup)
         (s : KnowledgeBaseManager.State),
    activeGroup st = Some g ->
    (forall s' url,
        KnowledgeBaseManager.handleAddUrl isValidUrl (currentUrlsForChat st) MAX_URLS s
        = (s', Some url) ->
        url = KnowledgeBaseManager.currentUrlInput s
        /\ truthy (trim url) = true
        /\ isValidUrl url = true
        /\ s' = {| KnowledgeBaseManager.currentUrlInput := [];
                   KnowledgeBaseManager.error := None |}
        /\ activeGroup (handleAddUrl url st)
           = Some {| group_id := group_id g; group_name := group_name g;
                     urls := urls g ++ [url] |}
        /\ currentUrlsForChat (handleAddUrl url st) = currentUrlsForChat st ++ [url])
    /\ (forall s',
          KnowledgeBaseManager.handleAddUrl isValidUrl (currentUrlsForChat st) MAX_URLS s
          = (s', None) ->
          KnowledgeBaseManager.currentUrlInput s' = KnowledgeBaseManager.currentUrlInput s
          /\ KnowledgeBaseManager.error s' <> None).
Proof.
  intros isValidUrl st g s Hact.
  assert (Hurls : currentUrlsForChat st = urls g)
    by (unfold currentUrlsForChat; now rewrite Hact).
  assert (Hid : eqb (group_id g) (activeUrlGroupId st) = true).
  { unfold activeGroup in Hact. now apply find_some in Hact as [_ H]. }
  unfold KnowledgeBaseManager.handleAddUrl. rewrite Hurls.
  destruct (truthy (trim (KnowledgeBaseManager.currentUrlInput s))) eqn:Et; cbn [negb];
    [|split; [discriminate | intros s' H; injection H as <-; split;
                              [reflexivity | discriminate]]].
  destruct (isValidUrl (KnowledgeBaseManager.currentUrlInput s)) eqn:Ev; cbn [negb];
    [|split; [discriminate | intros s' H; injection H as <-; split;
                              [reflexivity | discriminate]]].
  destruct (MAX_URLS <=? List.length (urls g))%nat eqn:El;
    [split; [discriminate | intros s' H; injection H as <-; split;
                             [reflexivity | discriminate]]|].
  destruct (includes (urls g) (KnowledgeBaseManager.currentUrlInput s)) eqn:Ei;
    [split; [discriminate | intros s' H; injection H as <-; split;
                             [reflexivity | discriminate]]|].
  split; [|discriminate].
  intros s' url H. injection H as <- <-.
  assert (Hag : activeGroup (handleAddUrl (KnowledgeBaseManager.currentUrlInput s) st)
                = Some {| group_id := group_id g; group_name := group_name g;
                          urls := urls g ++ [KnowledgeBaseManager.currentUrlInput s] |}).
  { unfold activeGroup, handleAddUrl.
    cbn [urlGroups activeUrlGroupId setUrlGroups].
    fold (urlGroups st) (activeUrlGroupId st).
    rewrite find_map_same.
    - unfold activeGroup in Hact. rewrite Hact. cbn [option_map]. rewrite Hid.
      apply Nat.leb_gt in El. apply Nat.ltb_lt in El. now rewrite El, Ei.
    - intros x. destruct (eqb (group_id x) (activeUrlGroupId st)) eqn:E; [|exact E].
      destruct ((List.length (urls x) <? MAX_URLS)%nat
                && negb (includes (urls x) (KnowledgeBaseManager.currentUrlInput s)));
        exact E. }
  repeat split; auto.
  unfold currentUrlsForChat at 1. now rewrite Hag.
Qed.

(** X14 on the mounted application, with every text taken as a valid URL. *)
Lemma X14_manager_add_url_reaches_group_witness :
  currentUrlsForChat (handleAddUrl (lit "https://example.com/") (mounted None))
  = currentUrlsForChat (mounted None) ++ [lit "https://example.com/"].
Proof.
  destruct (@X14_manager_add_url_reaches_group (fun _ => true) (mounted None)
              {| group_id := lit "gemini-overview"; group_name := lit "Gemini 文件總覽";
                 urls := GEMINI_DOCS_URLS |}
              {| KnowledgeBaseManager.currentUrlInput := lit "https://example.com/";
                 KnowledgeBaseManager.error := None |} eq_refl) as [H _].
  apply (H {| KnowledgeBaseManager.currentUrlInput := [];
              KnowledgeBaseManager.error := None |} (lit "https://example.com/")).
  vm_compute. reflexivity.
Defined.

(** ** The placeholder of the chat input *)

(** X15: the chat input shows the text that asks for a group or a URL
    exactly when the active group has no URL and no local context is
    attached; otherwise its text opens with the word for asking about the
    sources. *)
Theorem X15_placeholder_disabled_iff_no_source :
  forall (st : AppState),
    (getChatPlaceholder st
     = lit "請選擇一個群組並/或新增 URL 到知識庫以啟用聊天功能。"
     <-> currentUrlsForChat st = [] /\ localContext st = None)
    /\ (currentUrlsForChat st <> [] \/ localContext st <> None ->
        exists parts, getChatPlaceholder st = lit "針對 " ++ parts ++ lit " 提問...").
Proof.
  intros st.
  assert (Hother : forall x,
             lit "針對 " ++ x <> lit "請選擇一個群組並/或新增 URL 到知識庫以啟用聊天功能。").
  { intros x H. apply (f_equal (@hd_error N)) in H.
    change (hd_error (lit "針對 " ++ x)) with (Some 37341%N) in H.
    vm_compute in H. discriminate H. }
  unfold getChatPlaceholder.
  destruct (currentUrlsForChat st) as [|u us] eqn:Eu;
    cbn [List.length Nat.ltb Nat.leb negb andb]; cbv zeta.
  - destruct (localContext st) as [c|] eqn:Ec.
    + split.
      * split; [|intros [_ H]; discriminate H].
        intros H. exfalso. exact (Hother _ H).
      * intros _. eexists. reflexivity.
    + split; [split; auto|]. intros [H|H]; congruence.
  - split.
    + split; [|intros [H _]; discriminate H].
      intros H. exfalso. exact (Hother _ H).
    + intros _. eexists. reflexivity.
Qed.

(** X15 right after a group without URLs was added. *)
Lemma X15_placeholder_disabled_iff_no_source_witness :
  getChatPlaceholder (onAdd None 3 (lit "docs") (mounted None))
  = lit "請選擇一個群組並/或新增 URL 到知識庫以啟用聊天功能。"
  /\ exists parts,
       getChatPlaceholder (withAttachedFile None) = lit "針對 " ++ parts ++ lit " 提問...".
Proof.
  split.
  - apply (proj1 (X15_placeholder_disabled_iff_no_source
                    (onAdd None 3 (lit "docs") (mounted None)))).
    split; vm_compute; reflexivity.
  - apply (proj2 (X15_placeholder_disabled_iff_no_source (withAttachedFile None))).
    right. vm_compute. discriminate.
Defined.

(** ** Sending a query *)

Lemma generateContent_awaiting (API_KEY : option jsstring) (prompt : jsstring)
      (urls : list jsstring) (fileContent : option jsstring) :
  Gemini.keySet API_KEY = true ->
  exists req,
    Gemini.generateContentWithUrlContext API_KEY prompt urls fileContent
    = Gemini.Awaiting req
    /\ Gemini.contents req
       = [{| Gemini.role := lit "user";
             Gemini.parts :=
               [prompt ++ [10%N; 10%N] ++ lit "請用繁體中文回答。"
                ++ match fileContent with
                   | Some (c :: cs) =>
                       [10%N; 10%N] ++ lit "也請參考以下上傳的檔案內容："
                       ++ [10%N] ++ lit "---" ++ [10%N] ++ (c :: cs) ++ [10%N] ++ lit "---"
                   | _ => []
                   end] |}]
    /\ Gemini.tools (Gemini.config req)
       = Some (match urls with [] => [] | _ :: _ => [Gemini.UrlContext urls] end).
Proof.
  intros Hk. unfold Gemini.generateContentWithUrlContext.
  rewrite (getAiInstance_key _ Hk).
  destruct API_KEY as [k|]; [|discriminate Hk].
  eexists. split; [reflexivity|]. split; [|reflexivity].
  cbn [Gemini.contents]. destruct fileContent as [[|c cs]|].
  - now rewrite !app_nil_r.
  - now rewrite <- !app_assoc.
  - now rewrite !app_nil_r.
Qed.

(** What an idle application with a credential does with a query. *)
Lemma handleSendMessage_idle (API_KEY : option jsstring) (now : N) (query : jsstring)
      (st : AppState) :
  Gemini.keySet API_KEY = true ->
  truthy (trim query) = true ->
  isLoading st = false -> isFetchingSuggestions st = false ->
  exists st' req,
    handleSendMessage API_KEY now query st = (st', [req])
    /\ chatMessages st'
       = chatMessages st
         ++ [ {| msg_id := lit "user-" ++ ofNat now; msg_text := query;
                 sender := USER; timestamp := now; msg_isLoading := None;
                 urlContext := None |};
              modelPlaceholderMessage now ]
    /\ isLoading st' = true
    /\ initialQuerySuggestions st' = []
    /\ localContext st' = localContext st
    /\ urlGroups st' = urlGroups st
    /\ Gemini.contents req
       = [{| Gemini.role := lit "user";
             Gemini.parts :=
               [query ++ [10%N; 10%N] ++ lit "請用繁體中文回答。"
                ++ match option_map content (localContext st) with
                   | Some (c :: cs) =>
                       [10%N; 10%N] ++ lit "也請參考以下上傳的檔案內容："
                       ++ [10%N] ++ lit "---" ++ [10%N] ++ (c :: cs)
                       ++ [10%N] ++ lit "---"
                   | _ => []
                   end] |}]
    /\ Gemini.tools (Gemini.config req)
       = Some (match currentUrlsForChat st with
               | [] => []
               | _ :: _ => [Gemini.UrlContext (currentUrlsForChat st)]
               end).
Proof.
  intros Hk Hq HL HF. unfold handleSendMessage.
  rewrite Hq, HL, HF, Hk. cbn [negb orb].
  destruct (@generateContent_awaiting API_KEY query (currentUrlsForChat st)
              (option_map content (localContext st)) Hk) as (req & -> & Hc & Ht).
  eexists. exists req. split; [reflexivity|]. repeat split; auto.
Qed.

(** X16: a query that is blank, or sent while an answer or the
    suggestions are awaited, changes nothing and sends nothing.
    Otherwise, with a credential, sending appends exactly the user's
    message (the query as typed) and a loading placeholder of the model,
    raises the busy flag, clears the suggestions and sends exactly one
    call: its prompt is the query, the instruction to answer in
    Traditional Chinese, and the content of the local context, verbatim
    between two rules, when there is one; its tools hold the URLs of the
    active group when there are any. *)
Theorem X16_send_message :
  forall (API_KEY : option jsstring) (now : N) (query : jsstring) (st : AppState),
    (truthy (trim query) = false \/ isLoading st = true
     \/ isFetchingSuggestions st = true ->
     handleSendMessage API_KEY now query st = (st, []))
    /\ (Gemini.keySet API_KEY = true ->
        truthy (trim query) = true ->
        isLoading st = false -> isFetchingSuggestions st = false ->
        exists st' req,
          handleSendMessage API_KEY now query st = (st', [req])
          /\ chatMessages st'
             = chatMessages st
               ++ [ {| msg_id := lit "user-" ++ ofNat now; msg_text := query;
                       sender := USER; timestamp := now; msg_isLoading := None;
                       urlContext := None |};
                    modelPlaceholderMessage now ]
          /\ isLoading st' = true
          /\ initialQuerySuggestions st' = []
          /\ localContext st' = localContext st
          /\ urlGroups st' = urlGroups st
          /\ Gemini.contents req
             = [{| Gemini.role := lit "user";
                   Gemini.parts :=
                     [query ++ [10%N; 10%N] ++ lit "請用繁體中文回答。"
                      ++ match option_map content (localContext st) with
                         | Some (c :: cs) =>
                             [10%N; 10%N] ++ lit "也請參考以下上傳的檔案內容："
                             ++ [10%N] ++ lit "---" ++ [10%N] ++ (c :: cs)
                             ++ [10%N] ++ lit "---"
                         | _ => []
                         end] |}]
          /\ Gemini.tools (Gemini.config req)
             = Some (match currentUrlsForChat st with
                     | [] => []
                     | _ :: _ => [Gemini.UrlContext (currentUrlsForChat st)]
                     end)).
Proof.
  intros API_KEY now query st. split.
  - unfold handleSendMessage.
    intros [H|[H|H]]; rewrite H; cbn [negb orb]; rewrite ?orb_true_r; reflexivity.
  - apply handleSendMessage_idle.
Qed.

(** X16 on the mounted application with a key: the query hi. *)
Lemma X16_send_message_witness :
  (exists st' req,
      handleSendMessage sampleKey 7 (lit "hi") (mounted sampleKey) = (st', [req])
      /\ List.length (chatMessages st') = 3%nat
      /\ isLoading st' = true)
  /\ handleSendMessage sampleKey 7 (lit "  ") (mounted sampleKey)
     = (mounted sampleKey, []).
Proof.
  split.
  - destruct (proj2 (X16_send_message sampleKey 7 (lit "hi") (mounted sampleKey)))
      as (st' & req & H & Hm & HL & _); try reflexivity.
    exists st', req. split; [exact H|]. split; [|exact HL].
    rewrite Hm. reflexivity.
  - apply (proj1 (X16_send_message sampleKey 7 (lit "  ") (mounted sampleKey))).
    left. reflexivity.
Defined.

Lemma map_replace_absent {A : Type} (p : A -> bool) (x : A) (l : list A) :
  (forall y, In y l -> p y = false) -> map (fun y => if p y then x else y) l = l.
Proof.
  intros H. induction l as [|y l IH]; simpl; [reflexivity|].
  rewrite (H y (or_introl eq_refl)), IH; [reflexivity|].
  intros z Hz. apply H. now right.
Qed.

(** X17: the settling of a send rewrites the placeholder in place: the
    log keeps its length, every message with another id stays as it is,
    the busy flag goes down, and nothing else of the state changes; when
    no message bears the id of the placeholder (the log was reset in the
    meantime) the log is left as it is. *)
Theorem X17_settle_rewrites_placeholder_in_place :
  forall (sentAt : N) (s : Gemini.Settled) (st : AppState),
    List.length (chatMessages (handleSendMessage_settled sentAt s st))
    = List.length (chatMessages st)
    /\ (forall i m,
          nth_error (chatMessages st) i = Some m ->
          msg_id m <> msg_id (modelPlaceholderMessage sentAt) ->
          nth_error (chatMessages (handleSendMessage_settled sentAt s st)) i = Some m)
    /\ isLoading (handleSendMessage_settled sentAt s st) = false
    /\ localContext (handleSendMessage_settled sentAt s st) = localContext st
    /\ urlGroups (handleSendMessage_settled sentAt s st) = urlGroups st
    /\ ((forall m, In m (chatMessages st) ->
                   msg_id m <> msg_id (modelPlaceholderMessage sentAt)) ->
        chatMessages (handleSendMessage_settled sentAt s st) = chatMessages st).
Proof.
  intros sentAt s st. unfold handleSendMessage_settled.
  cbn [chatMessages setChatMessages setIsLoading isLoading localContext urlGroups].
  fold (chatMessages st). repeat split.
  - apply length_map.
  - intros i m Hi Hid. rewrite nth_error_map, Hi. cbn [option_map].
    apply eqb_neq in Hid. now rewrite Hid.
  - intros Habsent. apply map_replace_absent.
    intros m Hm. apply eqb_neq. now apply Habsent.
Qed.

(** X17 on the mounted application: an answer that arrives after the log
    was reset leaves the welcome message alone. *)
Lemma X17_settle_rewrites_placeholder_in_place_witness :
  chatMessages (handleSendMessage_settled 7 (Gemini.Rejected (lit "late"))
                  (mounted sampleKey))
  = chatMessages (mounted sampleKey).
Proof.
  apply (proj2 (proj2 (proj2 (proj2 (proj2
           (X17_settle_rewrites_placeholder_in_place 7 (Gemini.Rejected (lit "late"))
              (mounted sampleKey))))))).
  intros m [<-|[]]. vm_compute. discriminate.
Defined.

Lemma settle_failed_message (e : Gemini.Thrown) :
  exists msg,
    Gemini.generateContentWithUrlContext_settle (Gemini.Failed e) = Gemini.Rejected msg
    /\ truthy msg = true.
Proof.
  unfold Gemini.generateContentWithUrlContext_settle.
  destruct (Gemini.isError e); [|eexists; split; reflexivity].
  destruct (truthy (Gemini.err_message e)
            && Gemini.strIncludes (Gemini.err_message e) (lit "API key not valid"));
    [eexists; split; reflexivity|].
  destruct (truthy (Gemini.err_message e)
            && Gemini.strIncludes (Gemini.err_message e) (lit "quota"));
    [eexists; split; reflexivity|].
  destruct (eqb (Gemini.err_type e) (lit "GoogleGenAIError")
            && truthy (Gemini.err_message e));
    eexists; split; reflexivity.
Qed.

(** X18: a send followed by the settling of its call leaves the log as it
    was with two messages appended: the user's, and the placeholder
    rewritten with the loading mark removed.  After an answer it is a
    message of the model with the text of the answer (or a fixed text
    when the answer is empty) and the retrieval metadata; after a failure
    it is a system message that starts with the error label and carries
    the message of the service, which is never empty.  This holds when no
    earlier message bears the id of the placeholder. *)
Theorem X18_send_then_settle :
  forall (API_KEY : option jsstring) (now : N) (query : jsstring) (st : AppState)
         (answer : Gemini.BackendResult),
    Gemini.keySet API_KEY = true ->
    truthy (trim query) = true ->
    isLoading st = false -> isFetchingSuggestions st = false ->
    (forall m, In m (chatMessages st) ->
               msg_id m <> msg_id (modelPlaceholderMessage now)) ->
    exists final,
      chatMessages
        (handleSendMessage_settled now
           (Gemini.generateContentWithUrlContext_settle answer)
           (fst (handleSendMessage API_KEY now query st)))
      = chatMessages st
        ++ [ {| msg_id := lit "user-" ++ ofNat now; msg_text := query;
                sender := USER; timestamp := now; msg_isLoading := None;
                urlContext := None |};
             final ]
      /\ msg_id final = msg_id (modelPlaceholderMessage now)
      /\ msg_isLoading final = Some false
      /\ isLoading
           (handleSendMessage_settled now
              (Gemini.generateContentWithUrlContext_settle answer)
              (fst (handleSendMessage API_KEY now query st))) = false
      /\ match answer with
         | Gemini.Answered response =>
             sender final = MODEL
             /\ msg_text final
                = orElse (match Gemini.resp_text response with
                          | Some t => t
                          | None => []
                          end) (lit "我收到了空的回應。")
         | Gemini.Failed e =>
             sender final = SYSTEM
             /\ exists msg, msg <> [] /\ msg_text final = lit "錯誤： " ++ msg
         end.
Proof.
  intros API_KEY now query st answer Hk Hq HL HF Hfresh.
  destruct (@handleSendMessage_idle API_KEY now query st Hk Hq HL HF)
    as (st' & req & -> & Hm & _).
  cbn [fst]. unfold handleSendMessage_settled.
  cbn [chatMessages setChatMessages setIsLoading isLoading].
  fold (chatMessages st'). rewrite Hm, map_app.
  rewrite map_replace_absent
    by (intros m Hin; apply eqb_neq; now apply Hfresh).
  cbn [map]. rewrite eqb_refl.
  assert (Hu : eqb (lit "user-" ++ ofNat now) (msg_id (modelPlaceholderMessage now))
               = false) by reflexivity.
  cbn [msg_id] in Hu |- *. rewrite Hu.
  eexists. split; [reflexivity|].
  destruct answer as [response|e].
  - repeat split.
  - destruct (settle_failed_message e) as (msg & -> & Hne).
    repeat split. exists msg. split.
    + intros ->. discriminate Hne.
    + cbn [msg_text]. unfold orElse. now rewrite Hne.
Qed.

(** X18 on the mounted application: the query hi, then a quota failure. *)
Lemma X18_send_then_settle_witness :
  exists final,
    chatMessages
      (handleSendMessage_settled 7
         (Gemini.generateContentWithUrlContext_settle quotaFailure)
         (fst (handleSendMessage sampleKey 7 (lit "hi") (mounted sampleKey))))
    = chatMessages (mounted sampleKey)
      ++ [ {| msg_id := lit "user-" ++ ofNat 7; msg_text := lit "hi";
              sender := USER; timestamp := 7; msg_isLoading := None;
              urlContext := None |};
           final ]
    /\ sender final = SYSTEM.
Proof.
  destruct (@X18_send_then_settle sampleKey 7 (lit "hi") (mounted sampleKey)
              quotaFailure) as (final & Hm & _ & _ & _ & Hs & _);
    try reflexivity.
  - intros m [<-|[]]. vm_compute. discriminate.
  - exists final. split; [exact Hm | exact Hs].
Defined.

(** ** Failures of the backend *)

Lemma strIncludes_truthy (m sub : jsstring) :
  sub <> [] -> Gemini.strIncludes m sub = true -> truthy m = true.
Proof.
  intros Hs H. destruct m as [|c m]; [|reflexivity].
  destruct sub as [|x sub]; [congruence | discriminate H].
Qed.

(** X19: how a failed call is reported.  Something thrown that is not an
    error gives the unknown-error message.  For an error, a message that
    mentions an invalid API key gives the invalid-key message, even when
    it mentions the quota too; otherwise a message that mentions the
    quota gives the quota message; otherwise the message of the error is
    passed on behind a fixed label.  The suggestion call does the same
    for an invalid key, in its own words. *)
Theorem X19_failure_classification :
  forall (e : Gemini.Thrown),
    (Gemini.isError e = false ->
     Gemini.generateContentWithUrlContext_settle (Gemini.Failed e)
     = Gemini.Rejected (lit "因未知錯誤，無法從 AI 取得回應。")
     /\ Gemini.getInitialSuggestions_settle (Gemini.Failed e)
        = Gemini.Rejected (lit "因未知錯誤，無法從 AI 取得初始建議。"))
    /\ (Gemini.isError e = true ->
        Gemini.strIncludes (Gemini.err_message e) (lit "API key not valid") = true ->
        Gemini.generateContentWithUrlContext_settle (Gemini.Failed e)
        = Gemini.Rejected (lit "API 金鑰無效。請檢查您的 GEMINI_API_KEY 環境變數。")
        /\ Gemini.getInitialSuggestions_settle (Gemini.Failed e)
           = Gemini.Rejected
               (lit "用於建議的 API 金鑰無效。請檢查您的 GEMINI_API_KEY 環境變數。"))
    /\ (Gemini.isError e = true ->
        Gemini.strIncludes (Gemini.err_message e) (lit "API key not valid") = false ->
        Gemini.strIncludes (Gemini.err_message e) (lit "quota") = true ->
        Gemini.generateContentWithUrlContext_settle (Gemini.Failed e)
        = Gemini.Rejected (lit "已超過 API 配額。請檢查您的 Gemini API 配額。"))
    /\ (Gemini.isError e = true ->
        Gemini.strIncludes (Gemini.err_message e) (lit "API key not valid") = false ->
        Gemini.strIncludes (Gemini.err_message e) (lit "quota") = false ->
        exists label,
          Gemini.generateContentWithUrlContext_settle (Gemini.Failed e)
          = Gemini.Rejected (label ++ Gemini.err_message e)
          /\ (label = lit "Gemini API 錯誤： " \/ label = lit "無法從 AI 取得回應： ")).
Proof.
  intros e.
  unfold Gemini.generateContentWithUrlContext_settle, Gemini.getInitialSuggestions_settle.
  split; [intros ->; split; reflexivity|].
  split; [|split].
  - intros -> Hk.
    assert (Ht : truthy (Gemini.err_message e) = true).
    { apply (@strIncludes_truthy _ (lit "API key not valid")); [|exact Hk].
      vm_compute. discriminate. }
    rewrite Ht, Hk. split; reflexivity.
  - intros -> Hk Hq.
    assert (Ht : truthy (Gemini.err_message e) = true).
    { apply (@strIncludes_truthy _ (lit "quota")); [|exact Hq].
      vm_compute. discriminate. }
    rewrite Ht, Hk, Hq. reflexivity.
  - intros -> Hk Hq. rewrite Hk, Hq, !andb_false_r.
    destruct (eqb (Gemini.err_type e) (lit "GoogleGenAIError")
              && truthy (Gemini.err_message e)).
    + exists (lit "Gemini API 錯誤： "). split; [reflexivity | now left].
    + exists (lit "無法從 AI 取得回應： "). split; [reflexivity | now right].
Qed.

(** X19 on a message that names the key and the quota: the key wins. *)
Lemma X19_failure_classification_witness :
  Gemini.generateContentWithUrlContext_settle (Gemini.Failed mixedFailure)
  = Gemini.Rejected (lit "API 金鑰無效。請檢查您的 GEMINI_API_KEY 環境變數。").
Proof.
  assert (Hk : Gemini.strIncludes (Gemini.err_message mixedFailure)
                 (lit "API key not valid") = true) by (vm_compute; reflexivity).
  exact (proj1 (proj1 (proj2 (X19_failure_classification mixedFailure)) eq_refl Hk)).
Defined.

(** ** The suggestion effect and the log *)

(** X20: the second effect asks the backend for suggestions exactly when
    a credential is set and the active group has URLs; it then raises the
    busy flag, clears the suggestions and sends one call, in JSON mode
    and without tools, whose prompt ends with the URLs, one per line.  In
    every other case it only clears the suggestions and sends nothing. *)
Theorem X20_suggestions_effect :
  forall (API_KEY : option jsstring) (now : N) (st : AppState),
    (currentUrlsForChat st = [] \/ Gemini.keySet API_KEY = false ->
     suggestionsEffect API_KEY now st = (setInitialQuerySuggestions st [], []))
    /\ (Gemini.keySet API_KEY = true ->
        currentUrlsForChat st <> [] ->
        exists req intro,
          suggestionsEffect API_KEY now st
          = (setInitialQuerySuggestions (setIsFetchingSuggestions st true) [], [req])
          /\ Gemini.responseMimeType (Gemini.config req) = Some (lit "application/json")
          /\ Gemini.tools (Gemini.config req) = None
          /\ Gemini.contents req
             = [{| Gemini.role := lit "user";
                   Gemini.parts := [intro ++ join [10%N] (currentUrlsForChat st)] |}]).
Proof.
  intros API_KEY now st. unfold suggestionsEffect. split.
  - intros [H|H]; rewrite H; [reflexivity | now rewrite andb_false_r].
  - intros Hk Hne. rewrite Hk.
    destruct (currentUrlsForChat st) as [|u us]; [congruence|].
    cbn [List.length Nat.ltb Nat.leb andb].
    unfold fetchAndSetInitialSuggestions, Gemini.getInitialSuggestions.
    rewrite (getAiInstance_key _ Hk).
    destruct API_KEY as [k|]; [|discriminate Hk].
    eexists. eexists. split; [reflexivity|]. repeat split.
    unfold Gemini.suggestionsPrompt. cbn [Gemini.contents].
    rewrite !app_assoc. reflexivity.
Qed.

(** X20 on the mounted application, with and without a key. *)
Lemma X20_suggestions_effect_witness :
  snd (suggestionsEffect None 7 (mounted None)) = []
  /\ List.length (snd (suggestionsEffect sampleKey 7 (mounted sampleKey))) = 1%nat.
Proof.
  split.
  - rewrite (proj1 (X20_suggestions_effect None 7 (mounted None)));
      [reflexivity | now right].
  - destruct (proj2 (X20_suggestions_effect sampleKey 7 (mounted sampleKey)))
      as (req & intro & -> & _); [reflexivity | vm_compute; discriminate | reflexivity].
Defined.

Lemma fetch_settled_appends (now : N) (s : Gemini.Settled) (st : AppState) :
  exists suffix,
    chatMessages (fetchAndSetInitialSuggestions_settled now s st)
    = chatMessages st ++ suffix
    /\ (List.length suffix <= 1)%nat
    /\ Forall (fun m => sender m = SYSTEM) suffix.
Proof.
  unfold fetchAndSetInitialSuggestions_settled.
  destruct s as [response|message].
  - destruct (Gemini.text response) as [[|c cs]|];
      try (exists []; rewrite app_nil_r; repeat split; [simpl; lia | constructor]).
    destruct (parseSuggestions (c :: cs)).
    + exists []. rewrite app_nil_r. repeat split; [simpl; lia | constructor].
    + eexists [_]. repeat split; [simpl; lia | repeat constructor].
    + eexists [_]. repeat split; [simpl; lia | repeat constructor].
  - eexists [_]. repeat split; [simpl; lia | repeat constructor].
Qed.

(** X21: the log only grows, except at two places.  A group or URL event
    either leaves the state alone or ends with the first effect, which
    resets the log; the settling of a send rewrites the placeholder in
    place.  Every other event leaves the messages it finds as they are
    and appends at most two. *)
Theorem X21_log_is_append_only :
  forall (API_KEY : option jsstring) (now : N) (e : Event) (st : AppState),
    match e with
    | OnAddUrl _ | OnRemoveUrl _ | OnAdd _ | OnRemoveGroup _ _ | OnSetGroupId _ =>
        fst (step API_KEY now e st) = st
        \/ exists st0, fst (step API_KEY now e st) = welcomeEffect API_KEY now st0
    | SendSettled _ _ =>
        List.length (chatMessages (fst (step API_KEY now e st)))
        = List.length (chatMessages st)
    | _ =>
        exists suffix,
          chatMessages (fst (step API_KEY now e st)) = chatMessages st ++ suffix
          /\ (List.length suffix <= 2)%nat
    end.
Proof.
  intros API_KEY now e st.
  assert (Hnil : forall s t : AppState,
               chatMessages s = chatMessages t ->
               exists suffix,
                 chatMessages s = chatMessages t ++ suffix
                 /\ (List.length suffix <= 2)%nat).
  { intros s t H. exists []. rewrite app_nil_r. split; [exact H | simpl; lia]. }
  assert (Hfetch : forall s t u,
               chatMessages t = chatMessages u ->
               exists suffix,
                 chatMessages (fetchAndSetInitialSuggestions_settled now s t)
                 = chatMessages u ++ suffix /\ (List.length suffix <= 2)%nat).
  { intros s t u H. destruct (fetch_settled_appends now s t) as (suffix & H1 & H2 & _).
    exists suffix. split; [rewrite H1, H; reflexivity | lia]. }
  destruct e; unfold step; cbn [fst].
  - right. eexists. reflexivity.
  - right. eexists. reflexivity.
  - unfold onAdd. destruct (handleAddGroup now name st);
      [right; eexists; reflexivity | now left].
  - unfold onRemoveGroup. destruct (handleRemoveGroup groupId confirmed st);
      [now left | right; eexists; reflexivity | right; eexists; reflexivity].
  - unfold onSetGroupId. destruct (eqb id (activeUrlGroupId st));
      [now left | right; eexists; reflexivity].
  - unfold handleFileUpload.
    destruct (negb (includes ALLOWED_EXTENSIONS (extensionOf file))); cbn [fst];
      [|now apply Hnil].
    eexists [_]. split; [reflexivity | simpl; lia].
  - unfold handleFileUpload_settled.
    destruct (readByExtension (extensionOf file) file) as [t|].
    + destruct (truncateContent t). eexists [_]. split; [reflexivity | simpl; lia].
    + eexists [_]. split; [reflexivity | simpl; lia].
  - eexists [_]. split; [reflexivity | simpl; lia].
  - unfold handleFolderUpload_settled.
    destruct (Nat.eqb (processedCount (processFolder files)) 0);
      eexists [_]; (split; [reflexivity | simpl; lia]).
  - eexists [_]. split; [reflexivity | simpl; lia].
  - unfold handleSendMessage.
    destruct (negb (truthy (trim query)) || isLoading st || isFetchingSuggestions st);
      [now apply Hnil|].
    destruct (Gemini.keySet API_KEY) eqn:Hk; cbn [negb].
    + destruct (@generateContent_awaiting API_KEY query (currentUrlsForChat st)
                  (option_map content (localContext st)) Hk) as (req & -> & _).
      eexists [_; _]. split; [reflexivity | simpl; lia].
    + eexists [_]. split; [reflexivity | simpl; lia].
  - apply length_map.
  - unfold suggestionsEffect, fetchAndSetInitialSuggestions.
    destruct ((0 <? List.length (currentUrlsForChat st))%nat && Gemini.keySet API_KEY);
      [|now apply Hnil].
    destruct (currentUrlsForChat st) as [|u us]; [now apply Hnil|].
    destruct (Gemini.getInitialSuggestions API_KEY (u :: us)) as [r|m|r];
      cbn [fst]; [now apply Hfetch | now apply Hfetch | now apply Hnil].
  - now apply Hfetch.
  - now apply Hnil.
  - now apply Hnil.
Qed.

(** X22: a file whose text is empty is attached all the same, with count
    1, but the call sent for a query is then the very call that would be
    sent without any local context. *)
Theorem X22_empty_file_adds_nothing_to_prompt :
  forall (API_KEY : option jsstring) (now later asked : N) (query : jsstring)
         (file : File) (st : AppState),
    includes ALLOWED_EXTENSIONS (extensionOf file) = true ->
    readByExtension (extensionOf file) file = Some [] ->
    localContext (uploadFile now later file st)
    = Some {| ctx_type := CtxFile; ctx_name := file_name file; content := []; count := 1 |}
    /\ snd (handleSendMessage API_KEY asked query (uploadFile now later file st))
       = snd (handleSendMessage API_KEY asked query
                (setLocalContext (uploadFile now later file st) None)).
Proof.
  intros API_KEY now later asked query file st Ha Hr.
  assert (Hc : localContext (uploadFile now later file st)
               = Some {| ctx_type := CtxFile; ctx_name := file_name file;
                         content := []; count := 1 |}).
  { unfold uploadFile, handleFileUpload. rewrite Ha. cbn [negb].
    unfold handleFileUpload_settled. rewrite Hr. reflexivity. }
  split; [exact Hc|].
  unfold handleSendMessage.
  cbn [isLoading isFetchingSuggestions setLocalContext localContext].
  fold (isLoading (uploadFile now later file st))
       (isFetchingSuggestions (uploadFile now later file st)).
  destruct (negb (truthy (trim query)) || isLoading (uploadFile now later file st)
            || isFetchingSuggestions (uploadFile now later file st)); [reflexivity|].
  destruct (negb (Gemini.keySet API_KEY)); [reflexivity|].
  rewrite Hc. cbn [option_map content].
  change (currentUrlsForChat (setLocalContext (uploadFile now later file st) None))
    with (currentUrlsForChat (uploadFile now later file st)).
  unfold Gemini.generateContentWithUrlContext.
  destruct (Gemini.getAiInstance API_KEY); reflexivity.
Qed.

(** X22 on an empty text file and a question about the documents. *)
Lemma X22_empty_file_adds_nothing_to_prompt_witness :
  localContext (uploadFile 1 2 (textFile "empty.txt" 0 []) (mounted sampleKey))
  = Some {| ctx_type := CtxFile; ctx_name := lit "empty.txt"; content := []; count := 1 |}
  /\ snd (handleSendMessage sampleKey 3 (lit "hello")
            (uploadFile 1 2 (textFile "empty.txt" 0 []) (mounted sampleKey)))
     = snd (handleSendMessage sampleKey 3 (lit "hello")
              (setLocalContext
                 (uploadFile 1 2 (textFile "empty.txt" 0 []) (mounted sampleKey)) None)).
Proof.
  apply (X22_empty_file_adds_nothing_to_prompt sampleKey 1 2 3 (lit "hello")
           (textFile "empty.txt" 0 []) (mounted sampleKey)).
  - vm_compute. reflexivity.
  - vm_compute. reflexivity.
Defined.

(** X23: attaching a readable file and removing it again brings the
    local context back to none and leaves the groups and the active group
    as they were; the log has grown by exactly two system messages, the
    second naming the file that was removed. *)
Theorem X23_attach_then_remove :
  forall (now later removed : N) (file : File) (text : jsstring) (st : AppState),
    includes ALLOWED_EXTENSIONS (extensionOf file) = true ->
    readByExtension (extensionOf file) file = Some text ->
    let st' := handleLocalContextRemove removed (uploadFile now later file st) in
    localContext st' = None
    /\ urlGroups st' = urlGroups st
    /\ activeUrlGroupId st' = activeUrlGroupId st
    /\ isProcessingFiles st' = false
    /\ exists m1 m2,
         chatMessages st' = chatMessages st ++ [m1; m2]
         /\ sender m1 = SYSTEM /\ sender m2 = SYSTEM
         /\ msg_text m2 = lit "已移除本機上下文：「" ++ file_name file ++ lit "」。".
Proof.
  intros now later removed file text st Ha Hr st'. subst st'.
  unfold uploadFile, handleFileUpload. rewrite Ha. cbn [negb].
  unfold handleFileUpload_settled. rewrite Hr.
  destruct (truncateContent text) as [attached wasTruncated].
  unfold handleLocalContextRemove.
  cbn [localContext setLocalContext setIsProcessingFiles appendMessage setChatMessages
       ctx_name].
  do 4 (split; [reflexivity|]).
  eexists. eexists.
  split;
    [ cbn [chatMessages setChatMessages setIsProcessingFiles setLocalContext
           appendMessage];
      rewrite <- app_assoc; reflexivity
    | split; [|split]; reflexivity ].
Qed.

(** X23 on a small text file attached to the mounted application. *)
Lemma X23_attach_then_remove_witness :
  localContext (handleLocalContextRemove 3
                  (uploadFile 1 2 (textFile "a.txt" 5 (lit "hello")) (mounted None)))
  = None.
Proof.
  apply (X23_attach_then_remove 1 2 3 (textFile "a.txt" 5 (lit "hello"))
           (text := lit "hello") (mounted None)).
  - vm_compute. reflexivity.
  - vm_compute. reflexivity.
Defined.
